(** * AlpacaTVBridge: the order-decision and order-supervision core

    A shallow embedding of [src/AlpacaTVBridge.py] (class [AutomatedTrader]
    and the module-level glue around it), and the properties of the
    specification that are settled against it.

    Modelling conventions.
    - Python [float] and [int] values are exact rationals ([Q]): no
      binary rounding error is modelled.  [int(x)] truncates toward
      zero, [round(x, 2)] rounds to the nearest hundredth, ties to even.
    - Python [str] is [string] (a sequence of bytes).
    - A [dict] with string keys is a [gmap string _]; a missing key raises
      [KeyError].
    - The broker (alpaca [TradingClient]), the wall clock and [time.sleep]
      form the environment: an abstract type of worlds with one transition
      function per call.  Every call the program makes is also recorded in
      a trace, newest event first.
    - Exceptions are results of the monad [M]; the polling loop of
      [verifyOrder] is driven by fuel, and running out of it is the
      distinct result [Diverge]. *)

From Stdlib Require Import ZArith QArith Qround Qabs Lqa Lia String Ascii List Bool.
From stdpp Require Import gmap strings fin_maps.

Local Open Scope string_scope.
Local Open Scope Q_scope.

(** ** Numbers *)

Module PyNum.

Definition Qltb (x y : Q) : bool := negb (Qle_bool y x).
Definition Qeqb (x y : Q) : bool := Qeq_bool x y.

(** [int(x)]: truncation toward zero. *)
Definition py_int (x : Q) : Z := Z.quot (Qnum x) (Zpos (Qden x)).

(** [round(x, 2)]: nearest multiple of 1/100, ties to the even one. *)
Definition round_half_even (x : Q) : Z :=
  let f := Qfloor x in
  let r := x - inject_Z f in
  if Qltb r (1 # 2) then f
  else if Qltb (1 # 2) r then (f + 1)%Z
  else if Z.even f then f else (f + 1)%Z.

Definition py_round2 (x : Q) : Q := Qred (round_half_even (x * 100) # 100).

(** [float(s)] on the texts the price group [[0-9.]+] can capture:
    decimal digits with at most one point and at least one digit.
    [None] stands for [ValueError]. *)
Definition digit_of (a : ascii) : option Z :=
  let n := Z.of_N (N_of_ascii a) in
  if ((48 <=? n) && (n <=? 57))%Z then Some (n - 48)%Z else None.

Fixpoint float_digits (s : string) (seen_point : bool) (ndigits : nat)
         (num : Z) (scale : positive) : option Q :=
  match s with
  | EmptyString =>
      match ndigits with
      | O => None
      | S _ => Some (Qred (num # scale))
      end
  | String a s' =>
      if Ascii.eqb a "."%char then
        if seen_point then None
        else float_digits s' true ndigits num scale
      else
        match digit_of a with
        | Some d =>
            float_digits s' seen_point (S ndigits) (num * 10 + d)%Z
                         (if seen_point then (scale * 10)%positive else scale)
        | None => None
        end
  end.

Definition py_float (s : string) : option Q := float_digits s false 0 0%Z 1%positive.

Definition is_whole (x : Q) : Prop := exists z : Z, x == inject_Z z.

End PyNum.
Export PyNum.

(** ** Regular expressions: the subset of Python's [re] used by [setData]

    A backtracking matcher in continuation-passing style, with the
    priorities of Python's engine: alternatives left to right, a greedy
    repetition tries one more iteration before it tries to stop, a lazy one
    the other way round, and [re.search] takes the leftmost start.
    Matching is [re.IGNORECASE] throughout, as in both calls of the
    source. *)

Module Regex.

Inductive regex : Type :=
| Empty
| Lit (c : ascii)
| Dot
| Class (cs : list ascii)
| Seq (r1 r2 : regex)
| Alt (r1 r2 : regex)
| Group (i : nat) (r : regex)
| Star (greedy : bool) (r : regex).

Definition Plus (greedy : bool) (r : regex) : regex := Seq r (Star greedy r).
Definition Opt (r : regex) : regex := Alt r Empty.

Fixpoint Str (s : string) : regex :=
  match s with
  | EmptyString => Empty
  | String c EmptyString => Lit c
  | String c s' => Seq (Lit c) (Str s')
  end.

Fixpoint Seqs (rs : list regex) : regex :=
  match rs with
  | [] => Empty
  | [r] => r
  | r :: rs' => Seq r (Seqs rs')
  end.

Definition lower (a : ascii) : ascii :=
  let n := N_of_ascii a in
  if ((65 <=? n) && (n <=? 90))%N then ascii_of_N (n + 32) else a.

Definition same_char (a b : ascii) : bool := Ascii.eqb (lower a) (lower b).

Definition newline : ascii := ascii_of_N 10.

(** The text consumed between the suffixes [s] and [s1] of the subject. *)
Definition consumed (s s1 : string) : string :=
  substring 0 (String.length s - String.length s1) s.

Definition captures := list (option string).
Definition cont := string -> captures -> option captures.

Fixpoint rmatch (r : regex) (s : string) (caps : captures) (k : cont)
         {struct r} : option captures :=
  match r with
  | Empty => k s caps
  | Lit c =>
      match s with
      | String a s' => if same_char a c then k s' caps else None
      | EmptyString => None
      end
  | Dot =>
      match s with
      | String a s' => if Ascii.eqb a newline then None else k s' caps
      | EmptyString => None
      end
  | Class cs =>
      match s with
      | String a s' => if existsb (same_char a) cs then k s' caps else None
      | EmptyString => None
      end
  | Seq r1 r2 => rmatch r1 s caps (fun s1 c1 => rmatch r2 s1 c1 k)
  | Alt r1 r2 =>
      match rmatch r1 s caps k with
      | Some c => Some c
      | None => rmatch r2 s caps k
      end
  | Group i r1 =>
      rmatch r1 s caps (fun s1 c1 => k s1 (<[i := Some (consumed s s1)]> c1))
  | Star greedy r1 =>
      (fix loop (n : nat) (s : string) (caps : captures) {struct n}
         : option captures :=
         match n with
         | O => k s caps
         | S n' =>
             if greedy then
               match rmatch r1 s caps
                       (fun s1 c1 =>
                          if (String.length s1 <? String.length s)%nat
                          then loop n' s1 c1 else None) with
               | Some c => Some c
               | None => k s caps
               end
             else
               match k s caps with
               | Some c => Some c
               | None =>
                   rmatch r1 s caps
                     (fun s1 c1 =>
                        if (String.length s1 <? String.length s)%nat
                        then loop n' s1 c1 else None)
               end
         end) (String.length s) s caps
  end.

(** [re.search]: slot 0 of the result is the whole match, slot [i] is
    [group(i)], [None] for a group that took no part in the match. *)
Fixpoint search_from (r : regex) (ngroups : nat) (s : string) : option captures :=
  match rmatch (Group 0 r) s (replicate (S ngroups) None) (fun _ c => Some c) with
  | Some c => Some c
  | None =>
      match s with
      | String _ s' => search_from r ngroups s'
      | EmptyString => None
      end
  end.

Definition groups (m : captures) : list (option string) := tail m.
Definition group (m : captures) (i : nat) : option string := mjoin (m !! i).

End Regex.
Import Regex.

(** [r"(bear|bull|open|close).+?(long|short)?.+[|] (.+)[@]\[*([0-9.]+)\]* [|]"] *)
Definition ldc_pattern : regex :=
  Seqs [ Group 1 (Alt (Str "bear") (Alt (Str "bull") (Alt (Str "open") (Str "close"))));
         Plus false Dot;
         Opt (Group 2 (Alt (Str "long") (Str "short")));
         Plus true Dot;
         Class ["|"%char]; Lit " ";
         Group 3 (Plus true Dot);
         Class ["@"%char];
         Star true (Lit "[");
         Group 4 (Plus true (Class (list_ascii_of_string "0123456789.")));
         Star true (Lit "]");
         Lit " "; Class ["|"%char] ].

(** [r"order (buy|sell) [|] (.+)[@]\[*([0-9.]+)\]* [|]"] *)
Definition order_pattern : regex :=
  Seqs [ Str "order "; Group 1 (Alt (Str "buy") (Str "sell"));
         Lit " "; Class ["|"%char]; Lit " ";
         Group 2 (Plus true Dot);
         Class ["@"%char];
         Star true (Lit "[");
         Group 3 (Plus true (Class (list_ascii_of_string "0123456789.")));
         Star true (Lit "]");
         Lit " "; Class ["|"%char] ].

(** ** Broker objects and the values of the program *)

Inductive OrderSide : Type := BUY | SELL.
Inductive TimeInForce : Type := GTC.

#[global] Instance OrderSide_eq_dec : EqDecision OrderSide.
Proof. solve_decision. Defined.

(** An order as the broker reports it.  The three time stamps are [None]
    while the order is open. *)
Record Order : Type := {
  id_hex : string;
  client_order_id : string;
  symbol : option string;
  side : OrderSide;
  qty : Q;
  filled_qty : Q;
  filled_at : option Q;
  failed_at : option Q;
  canceled_at : option Q }.

Record Position : Type := { position_qty : Q }.
Record Account : Type := { cash : Q }.

Inductive OrderRequest : Type :=
| MarketOrderRequest (symbol : option string) (qty : Q) (side : OrderSide)
                     (time_in_force : TimeInForce)
| LimitOrderRequest (symbol : option string) (limit_price : Q) (qty : Q)
                    (side : OrderSide) (time_in_force : TimeInForce).

Definition request_qty (r : OrderRequest) : Q :=
  match r with
  | MarketOrderRequest _ q _ _ => q
  | LimitOrderRequest _ _ q _ _ => q
  end.

Definition request_side (r : OrderRequest) : OrderSide :=
  match r with
  | MarketOrderRequest _ _ sd _ => sd
  | LimitOrderRequest _ _ _ sd _ => sd
  end.

Definition request_symbol (r : OrderRequest) : option string :=
  match r with
  | MarketOrderRequest sy _ _ _ => sy
  | LimitOrderRequest sy _ _ _ _ => sy
  end.

(** [self.data]: the groups captured by [setData].  A group is a [str] or
    [None]. *)
Record Data : Type := {
  action : option string;
  position : option string;
  stock : option string;
  price : Q }.

(** The values held by the options dictionary. *)
Inductive Value : Type :=
| VNone
| VBool (b : bool)
| VNum (x : Q)
| VStr (s : string)
| VOrders (l : list Order)
| VPosition (p : Position).

(** Python truth value. *)
Definition truthy (v : Value) : bool :=
  match v with
  | VNone => false
  | VBool b => b
  | VNum x => negb (Qeqb x 0)
  | VStr s => negb (String.eqb s EmptyString)
  | VOrders l => match l with [] => false | _ => true end
  | VPosition _ => true
  end.

(** [v == "text"] for a string literal. *)
Definition is_str (v : Value) (s : string) : bool :=
  match v with
  | VStr s' => String.eqb s' s
  | _ => false
  end.

(** [group == "text"] for a captured group. *)
Definition text_is (g : option string) (s : string) : bool :=
  match g with
  | Some s' => String.eqb s' s
  | None => false
  end.

Definition is_None {A} (o : option A) : bool :=
  match o with None => true | Some _ => false end.

Inductive Exn : Type :=
| KeyError (key : string)
| AttributeError (name : string)
| TypeError
| ValueError
| ZeroDivisionError
| UnboundLocalError (name : string)
| NameError (msg : string)
| Exception (msg : string)
| BrokerError (msg : string).

Inductive Level : Type := DEBUG | INFO | WARNING | ERROR.

(** The log records of the source, one constructor per format string, with
    the values it interpolates. *)
Inductive LogMessage : Type :=
| RecievedRequest (req_data : string)
| ConfigConflict
| FailedToExtract (req : string)
| InvalidWebhook (req : string)
| NegativeBalance (balance : Q)
| AlreadyShorted (d : Data)
| ShortingNotEnabled (d : Data)
| SellingAllPositions (d : Data)
| ShortNotNeeded (d : Data)
| UnhandledOrder (d : Data)
| ZeroOrdersRequested (d : Data)
| NegativeOrdersRequested (d : Data) (amount : Q)
| NotEnabledNotPlaced (d : Data) (quantity : Q)
| ExceededMaxTime (maxTime : Value) (d : Data) (quantity : Q)
| OrderCancelFailed (d : Data) (quantity : Q)
| TimeoutMarketSucceeded (d : Data) (quantity : Q)
| TimeoutMarketFailed (d : Data) (quantity : Q)
| TimeoutSettingNotFound
| ExceededTotalMaxTime (totalMaxTime : Value) (d : Data) (quantity : Q)
| OrderCanceled (d : Data) (quantity : Q)
| OrderFailed (d : Data) (quantity : Q)
| OrderFilled (d : Data) (quantity : Q)
| TradingNotEnabledNotCanceled (d : Data)
| CanceledOrder (d : Data) (id : string).

(** What the program does to the outside, in the order it does it. *)
Inductive Event : Type :=
| EvGetOrders (symbols : option (list (option string)))
| EvGetOpenPosition (symbol : option string)
| EvGetAccount
| EvSubmitOrder (request : OrderRequest)
| EvGetOrderByClientId (id : string) (seen : option Order)
| EvCancelOrderById (id : string)
| EvSleep (seconds : Q)
| EvPrint (args : list Value)
| EvLog (level : Level) (message : LogMessage).

(** The calls that reach the broker. *)
Definition broker_call (e : Event) : bool :=
  match e with
  | EvGetOrders _ | EvGetOpenPosition _ | EvGetAccount | EvSubmitOrder _
  | EvGetOrderByClientId _ _ | EvCancelOrderById _ => true
  | EvSleep _ | EvPrint _ | EvLog _ _ => false
  end.

(** The calls that change something at the broker. *)
Definition broker_mutation (e : Event) : bool :=
  match e with
  | EvSubmitOrder _ | EvCancelOrderById _ => true
  | _ => false
  end.

(** ** The environment

    [time.time], [time.sleep] and the methods of the alpaca client the
    program calls.  A world has a clock, which [time.time] reads; time
    passes in [time.sleep] and in the calls of the broker, in no way
    the program could know.  A broker call may raise. *)
Class Environment (W : Type) : Type := {
  time_time : W -> Q;
  time_sleep : Q -> W -> W;
  get_orders : option (list (option string)) -> W -> (Exn + list Order) * W;
  get_open_position : option string -> W -> (Exn + Position) * W;
  get_account : W -> (Exn + Account) * W;
  submit_order : OrderRequest -> W -> (Exn + Order) * W;
  get_order_by_client_id : string -> W -> (Exn + Order) * W;
  cancel_order_by_id : string -> W -> (Exn + unit) * W }.

(** ** Program state *)

(** The attributes of one [AutomatedTrader] instance.  [options_shared]
    says that [self.options] is the very dictionary bound to the module
    variable [settings] (the assignment [self.options = settings] copies
    the reference, not the dictionary); otherwise [self.options] is the
    instance's own dictionary [own_options].  An attribute that has not
    been assigned is [None]. *)
Record Trader : Type := {
  options_shared : bool;
  own_options : gmap string Value;
  paper : bool;
  req : string;
  data : option Data;
  order_data : option OrderRequest;
  order : option Order }.

Record State (W : Type) : Type := {
  world : W;
  trace : list Event;
  settings : gmap string Value;
  self : Trader }.

Arguments world {W} _.
Arguments trace {W} _.
Arguments settings {W} _.
Arguments self {W} _.

Inductive Result (W A : Type) : Type :=
| Ok (a : A) (s : State W)
| Raise (e : Exn) (s : State W)
| Diverge.

Arguments Ok {W A} _ _.
Arguments Raise {W A} _ _.
Arguments Diverge {W A}.

Definition M (W A : Type) : Type := State W -> Result W A.

Definition ret {W A} (a : A) : M W A := fun s => Ok a s.

Definition bind {W A B} (m : M W A) (f : A -> M W B) : M W B :=
  fun s =>
    match m s with
    | Ok a s' => f a s'
    | Raise e s' => Raise e s'
    | Diverge => Diverge
    end.

Definition raise {W A} (e : Exn) : M W A := fun s => Raise e s.
Definition diverge {W A} : M W A := fun _ => Diverge.

(** [try: m except Exception: h] *)
Definition try_except {W A} (m : M W A) (h : Exn -> M W A) : M W A :=
  fun s =>
    match m s with
    | Raise e s' => h e s'
    | r => r
    end.

Declare Scope monad_scope.
Delimit Scope monad_scope with M.
Notation "x <- m ;; k" := (bind m (fun x => k))
  (at level 100, m at next level, right associativity) : monad_scope.
Notation "m ;; k" := (bind m (fun _ => k))
  (at level 100, right associativity) : monad_scope.
Local Open Scope monad_scope.

(** ** Module level: credentials and settings *)

(** [getKeys(account)]: only the [paper] flag of the credentials matters
    to the program logic. *)
Definition getKeys (account : string) : Exn + bool :=
  if String.eqb account "paperTrading" then inr true
  else if String.eqb account "realTrading" then inr false
  else inl (NameError "Verify account type (realTrading/paperTrading) is correct in settings(using:)").

(** [loadSettings(paper, real, using)].  The module [settings.py] is not
    part of the sources; its dictionaries are arguments here: [real_keys]
    is [real.keys()], in the order of the dictionary, and [selected] is
    [options[options["using"]]].  The result is the dictionary [paper]
    itself, updated in place. *)
Definition loadSettings (paper : gmap string Value) (real_keys : list string)
           (using_account : string) (selected : gmap string Value)
  : Exn + gmap string Value :=
  if String.eqb using_account "paperTrading" then inr paper
  else
    match List.find (fun i => bool_decide (paper !! i = None)) real_keys with
    | Some i =>
        inl (Exception ("realTrading/paperTrading setting name mismatch: " ++ i
                        ++ ". Please fix the spelling in realTrading"))
    | None => inr (selected ∪ paper)
    end.

(** The dictionary literal of [AutomatedTrader.__init__]. *)
Definition default_options : gmap string Value :=
  list_to_map
    [ ("short", VBool false);
      ("buyPerc", VNum (2 # 10));
      ("balance", VNum 0);
      ("buyBal", VNum 0);
      ("positions", VOrders []);
      ("orders", VOrders []);
      ("allOrders", VOrders []);
      ("testMode", VBool true);
      ("enabled", VBool true);
      ("limit", VBool true);
      ("limitamt", VNum (4 # 100));
      ("limitThreshold", VNum 100);
      ("limitPerc", VNum (5 # 10000));
      ("maxTime", VNum 10) ].

(** The locals [side] and [amount] of [createOrder] when control leaves
    the branches of lines 286-353: [Stop] at one of the [return]
    statements inside them, [Proceed] when control falls through to the
    checks of line 356.  [side] is [None] while the local is unbound. *)
Inductive Flow : Type :=
| Stop (sd : option OrderSide) (amount : Q)
| Proceed (sd : option OrderSide) (amount : Q).

Definition is_VNone (v : Value) : bool :=
  match v with VNone => true | _ => false end.

Definition is_open (o : Order) : bool :=
  is_None (filled_at o) && is_None (failed_at o) && is_None (canceled_at o).

(** ** The methods of [AutomatedTrader] *)

Section Program.

Context {W : Type} `{Environment W}.

Local Abbreviation Prog := (M W).

(** *** State access *)

Definition with_world (w : W) (s : State W) : State W :=
  {| world := w; trace := trace s; settings := settings s; self := self s |}.
Definition with_trace (t : list Event) (s : State W) : State W :=
  {| world := world s; trace := t; settings := settings s; self := self s |}.
Definition with_settings (o : gmap string Value) (s : State W) : State W :=
  {| world := world s; trace := trace s; settings := o; self := self s |}.
Definition with_self (t : Trader) (s : State W) : State W :=
  {| world := world s; trace := trace s; settings := settings s; self := t |}.

Definition with_own_options (o : gmap string Value) (t : Trader) : Trader :=
  {| options_shared := options_shared t; own_options := o; paper := paper t;
     req := req t; data := data t; order_data := order_data t; order := order t |}.
Definition with_data (d : Data) (t : Trader) : Trader :=
  {| options_shared := options_shared t; own_options := own_options t;
     paper := paper t; req := req t; data := Some d;
     order_data := order_data t; order := order t |}.
Definition with_order_data (r : OrderRequest) (t : Trader) : Trader :=
  {| options_shared := options_shared t; own_options := own_options t;
     paper := paper t; req := req t; data := data t;
     order_data := Some r; order := order t |}.
Definition with_order (o : Order) (t : Trader) : Trader :=
  {| options_shared := options_shared t; own_options := own_options t;
     paper := paper t; req := req t; data := data t;
     order_data := order_data t; order := Some o |}.

(** The dictionary [self.options] denotes. *)
Definition options (s : State W) : gmap string Value :=
  if options_shared (self s) then settings s else own_options (self s).

Definition with_options (o : gmap string Value) (s : State W) : State W :=
  if options_shared (self s) then with_settings o s
  else with_self (with_own_options o (self s)) s.

Definition emit (e : Event) : Prog unit :=
  fun s => Ok tt (with_trace (e :: trace s) s).

Definition log (lvl : Level) (msg : LogMessage) : Prog unit := emit (EvLog lvl msg).
Definition print (args : list Value) : Prog unit := emit (EvPrint args).

(** [self.options[k]] *)
Definition opt (k : string) : Prog Value :=
  fun s =>
    match options s !! k with
    | Some v => Ok v s
    | None => Raise (KeyError k) s
    end.

(** [self.options[k] = v] *)
Definition set_opt (k : string) (v : Value) : Prog unit :=
  fun s => Ok tt (with_options (<[k := v]> (options s)) s).

(** [self.data], [self.order_data]: [AttributeError] before assignment. *)
Definition the_data : Prog Data :=
  fun s =>
    match data (self s) with
    | Some d => Ok d s
    | None => Raise (AttributeError "data") s
    end.

Definition the_order_data : Prog OrderRequest :=
  fun s =>
    match order_data (self s) with
    | Some r => Ok r s
    | None => Raise (AttributeError "order_data") s
    end.

Definition set_data (d : Data) : Prog unit :=
  fun s => Ok tt (with_self (with_data d (self s)) s).
Definition set_order_data (r : OrderRequest) : Prog unit :=
  fun s => Ok tt (with_self (with_order_data r (self s)) s).
Definition set_order (o : Order) : Prog unit :=
  fun s => Ok tt (with_self (with_order o (self s)) s).

(** A call of the broker client: the world moves, the call is recorded,
    an exception of the client propagates. *)
Definition call {A} (op : W -> (Exn + A) * W) (ev : Event) : Prog A :=
  fun s =>
    let (r, w') := op (world s) in
    let s' := with_world w' (with_trace (ev :: trace s) s) in
    match r with
    | inl e => Raise e s'
    | inr a => Ok a s'
    end.

(** [self.client.get_order_by_client_id(id)]; the event keeps what was
    seen. *)
Definition poll (id : string) : Prog Order :=
  fun s =>
    let (r, w') := get_order_by_client_id id (world s) in
    match r with
    | inl e =>
        Raise e (with_world w' (with_trace (EvGetOrderByClientId id None :: trace s) s))
    | inr o =>
        Ok o (with_world w' (with_trace (EvGetOrderByClientId id (Some o) :: trace s) s))
    end.

Definition now : Prog Q := fun s => Ok (time_time (world s)) s.

Definition sleep (d : Q) : Prog unit :=
  fun s => Ok tt (with_world (time_sleep d (world s)) (with_trace (EvSleep d :: trace s) s)).

(** *** Dynamic typing *)

Definition as_num (v : Value) : Prog Q :=
  match v with
  | VNum x => ret x
  | VBool b => ret (if b then 1 else 0)
  | _ => raise TypeError
  end.

(** [len(v)] *)
Definition len (v : Value) : Prog nat :=
  match v with
  | VOrders l => ret (length l)
  | VStr t => ret (String.length t)
  | _ => raise TypeError
  end.

(** [for x in v] *)
Definition as_orders (v : Value) : Prog (list Order) :=
  match v with
  | VOrders l => ret l
  | _ => raise TypeError
  end.

(** [x / y] *)
Definition py_div (x y : Q) : Prog Q :=
  if Qeqb y 0 then raise ZeroDivisionError else ret (x / y).

(** [float(g)] for a captured group. *)
Definition float_of_group (g : option string) : Prog Q :=
  match g with
  | None => raise TypeError
  | Some t =>
      match py_float t with
      | Some x => ret x
      | None => raise ValueError
      end
  end.

Fixpoint for_each {A} (xs : list A) (body : A -> Prog unit) : Prog unit :=
  match xs with
  | [] => ret tt
  | x :: xs' => body x;; for_each xs' body
  end.

Definition of_group (g : option string) : Value :=
  match g with Some t => VStr t | None => VNone end.

(** *** [setData] *)

Definition setData : Prog unit :=
  fun s =>
    let r := req (self s) in
    let extractedData :=
      if String.eqb (substring 0 3 r) "LDC"
      then search_from ldc_pattern 4 r
      else search_from order_pattern 3 r in
    match extractedData with
    | None =>
        (log ERROR (FailedToExtract r);;
         raise (Exception "Failed to extract incoming request data")) s
    | Some m =>
        if (length (groups m) =? 3)%nat then
          (p <- float_of_group (group m 3);;
           set_data {| action := group m 1; position := None;
                       stock := group m 2; price := p |}) s
        else if (length (groups m) =? 4)%nat then
          (p <- float_of_group (group m 4);;
           set_data {| action := group m 1; position := group m 2;
                       stock := group m 3; price := p |}) s
        else
          (log ERROR (InvalidWebhook r);;
           print [VStr "invalid webhook received"]) s
    end.

(** *** [setOrders], [setPosition], [setBalance] *)

Definition setOrders : Prog unit :=
  all <- call (get_orders None) (EvGetOrders None);;
  set_opt "allOrders" (VOrders all);;
  v <- opt "allOrders";;
  xs <- as_orders v;;
  for_each xs (fun x => print [of_group (symbol x); VNum (qty x)]);;
  d <- the_data;;
  let stock_request := Some [stock d] in
  orders <- call (get_orders stock_request) (EvGetOrders stock_request);;
  set_opt "orders" (VOrders orders).

Definition setPosition : Prog unit :=
  try_except
    (d <- the_data;;
     p <- call (get_open_position (stock d)) (EvGetOpenPosition (stock d));;
     set_opt "positions" (VPosition p))
    (fun _ => set_opt "positions" VNone).

Definition setBalance : Prog unit :=
  a <- call get_account EvGetAccount;;
  let acctBal := cash a in
  set_opt "balance" (VNum acctBal).

(** *** [cancelOrderById] *)

Definition cancelOrderById (id : option string) : Prog (option LogMessage) :=
  enabled <- opt "enabled";;
  if negb (truthy enabled) then
    d <- the_data;;
    let value := TradingNotEnabledNotCanceled d in
    log DEBUG value;;
    ret (Some value)
  else
    match id with
    | Some i =>
        call (cancel_order_by_id i) (EvCancelOrderById i);;
        ret None
    | None =>
        v <- opt "orders";;
        xs <- as_orders v;;
        for_each xs (fun x =>
          call (cancel_order_by_id (id_hex x)) (EvCancelOrderById (id_hex x));;
          d <- the_data;;
          log INFO (CanceledOrder d (id_hex x)));;
        ret None
    end.

(** *** [orderType] *)

Definition orderType (amount : Q) (sd : OrderSide) (limit : bool) : Prog unit :=
  order_data <-
    (if negb limit then
       d <- the_data;;
       ret (MarketOrderRequest (stock d) amount sd GTC)
     else
       d <- the_data;;
       limitThreshold <- opt "limitThreshold";;
       limitThreshold <- as_num limitThreshold;;
       (if Qltb limitThreshold (price d) then
          limitPerc <- opt "limitPerc";;
          limitPerc <- as_num limitPerc;;
          set_opt "limitamt" (VNum (price d * limitPerc))
        else ret tt);;
       d <- the_data;;
       limitamt <- opt "limitamt";;
       limitamt <- as_num limitamt;;
       ret (LimitOrderRequest (stock d)
              (py_round2 (price d + (if decide (sd = BUY) then limitamt else - limitamt)))
              amount sd GTC));;
  set_order_data order_data.

(** *** [createOrder] *)

(** Lines 265-276: the balance override and the whole-share amount. *)
Definition createOrder_amount : Prog Q :=
  testMode <- opt "testMode";;
  (if truthy testMode then set_opt "balance" (VNum 100000)
   else
     balance <- opt "balance";;
     balance <- as_num balance;;
     if Qltb balance 0 then
       log WARNING (NegativeBalance balance);;
       set_opt "balance" (VNum 0)
     else ret tt);;
  balance <- opt "balance";;
  buyPerc <- opt "buyPerc";;
  balance <- as_num balance;;
  buyPerc <- as_num buyPerc;;
  d <- the_data;;
  shares <- py_div (balance * buyPerc) (price d);;
  ret (inject_Z (py_int shares)).

(** Lines 279-283. *)
Definition createOrder_posQty : Prog Q :=
  positions <- opt "positions";;
  match positions with
  | VNone => ret 0
  | VPosition p => ret (position_qty p)
  | _ => raise (AttributeError "qty")
  end.

(** Lines 286-353: the branches on action and position. *)
Definition createOrder_sizing (amount posQty : Q) : Prog Flow :=
  d <- the_data;;
  if text_is (action d) "Open" && text_is (position d) "Short" then
    let sd := Some SELL in
    if Qltb posQty 0 then
      log DEBUG (AlreadyShorted d);;
      ret (Stop sd 0)
    else
      short <- opt "short";;
      if negb (truthy short) && Qeqb posQty 0 then
        log INFO (ShortingNotEnabled d);;
        ret (Proceed sd 0)
      else if negb (truthy short) && Qltb 0 posQty then
        log INFO (SellingAllPositions d);;
        ret (Proceed sd posQty)
      else if truthy short && Qltb 0 posQty then
        ret (Proceed sd posQty)
      else if truthy short && Qeqb posQty 0 then
        ret (Proceed sd amount)
      else if truthy short && Qltb posQty 0 then
        log INFO (AlreadyShorted d);;
        ret (Stop sd 0)
      else ret (Proceed sd amount)
  else if text_is (action d) "Close" && text_is (position d) "Short" then
    let sd := Some BUY in
    if Qltb 0 posQty then
      log DEBUG (ShortNotNeeded d);;
      ret (Stop sd 0)
    else if Qeqb posQty 0 then
      ret (Proceed sd amount)
    else if Qltb posQty 0 then
      ret (Proceed sd (Qabs posQty))
    else ret (Proceed sd amount)
  else if (text_is (action d) "Bull" || text_is (action d) "buy"
           || text_is (action d) "Open")
          && (text_is (position d) "Long" || is_None (position d)) then
    positions <- opt "positions";;
    ret (Proceed (Some BUY) (if negb (is_VNone positions) then 0 else amount))
  else if (text_is (action d) "Bear" || text_is (action d) "sell"
           || text_is (action d) "Close")
          && (text_is (position d) "Long" || is_None (position d)) then
    positions <- opt "positions";;
    ret (Proceed (Some SELL)
           (if negb (is_VNone positions) && Qltb 0 posQty then 0 + posQty else 0))
  else
    log ERROR (UnhandledOrder d);;
    ret (Proceed None amount).

(** Lines 265-353 together: the sizing decision of [createOrder]. *)
Definition createOrder_decision : Prog Flow :=
  amount <- createOrder_amount;;
  posQty <- createOrder_posQty;;
  createOrder_sizing amount posQty.

(** *** [verifyOrder] *)

(** Lines 420-510.  [verifyOrder] calls itself; [self_call] stands for
    that call in the pieces below and is tied to [verifyOrder] in its
    definition. *)
Section VerifyOrder.

Variable self_call : Order -> bool -> Prog Value.

(** [(options["buyTimeout"] == policy and orderSideBuy)
     or (options["sellTimeout"] == policy and orderSideSell)] *)
Definition timeout_policy (policy : string) (orderSideBuy orderSideSell : bool)
  : Prog bool :=
  buyTimeout <- opt "buyTimeout";;
  if is_str buyTimeout policy && orderSideBuy then ret true
  else
    sellTimeout <- opt "sellTimeout";;
    ret (is_str sellTimeout policy && orderSideSell).

(** [elapsed > limit] *)
Definition exceeds (elapsed : Q) (limit : Value) : Prog bool :=
  l <- as_num limit;;
  ret (Qltb l elapsed).

(** Lines 496-510: after the loop. *)
Definition verifyOrder_result (o : Order) : Prog Value :=
  if negb (is_None (canceled_at o)) then
    d <- the_data;;
    od <- the_order_data;;
    log DEBUG (OrderCanceled d (request_qty od));;
    ret (VBool true)
  else if negb (is_None (failed_at o)) then
    d <- the_data;;
    od <- the_order_data;;
    log WARNING (OrderFailed d (request_qty od));;
    ret (VBool false)
  else if negb (is_None (filled_at o)) then
    d <- the_data;;
    od <- the_order_data;;
    log INFO (OrderFilled d (request_qty od));;
    ret (VBool true)
  else ret VNone.

(** Lines 436-484: the per-order timeout branch. *)
Definition verifyOrder_escalate (o : Order) (id : string)
           (orderSideBuy orderSideSell : bool) (maxTime : Value) : Prog unit :=
  d <- the_data;;
  od <- the_order_data;;
  log DEBUG (ExceededMaxTime maxTime d (request_qty od));;
  cancel_policy <- timeout_policy "Cancel" orderSideBuy orderSideSell;;
  if cancel_policy then
    cancelOrderById (Some (id_hex o));;
    o <- poll id;;
    r <- self_call o true;;
    if negb (truthy r) then
      print [VStr "cancel order failed"];;
      d <- the_data;;
      od <- the_order_data;;
      log DEBUG (OrderCancelFailed d (request_qty od))
    else ret tt
  else
    market_policy <- timeout_policy "Market" orderSideBuy orderSideSell;;
    if market_policy then
      cancelOrderById (Some (id_hex o));;
      o <- poll id;;
      r <- self_call o true;;
      if truthy r then
        print [VStr "verified canceled order"];;
        let amount := qty o - filled_qty o in
        orderType amount (side o) false;;
        od <- the_order_data;;
        o <- call (submit_order od) (EvSubmitOrder od);;
        r <- self_call o true;;
        if truthy r then
          d <- the_data;;
          od <- the_order_data;;
          log DEBUG (TimeoutMarketSucceeded d (request_qty od))
        else
          print [VStr "market order failed"];;
          d <- the_data;;
          od <- the_order_data;;
          log DEBUG (TimeoutMarketFailed d (request_qty od))
      else
        print [VStr "cancel order failed"];;
        d <- the_data;;
        od <- the_order_data;;
        log DEBUG (OrderCancelFailed d (request_qty od));;
        raise (Exception "cancel order failed")
    else
      log ERROR TimeoutSettingNotFound;;
      raise (Exception "buy or sell timeout setting not found. Check the spelling in the settings and relaunch the server").

(** Lines 430-494: the polling loop, one unit of fuel per iteration. *)
Fixpoint verifyOrder_while (n : nat) (maxTime totalMaxTime : Value)
         (orderSideBuy orderSideSell : bool) (start : Q) (id : string)
         (o : Order) (timeout : bool) {struct n} : Prog Value :=
  match n with
  | O => diverge
  | S n' =>
      if is_open o then
        t <- now;;
        late <- exceeds (t - start) maxTime;;
        if late && negb timeout then
          verifyOrder_escalate o id orderSideBuy orderSideSell maxTime;;
          sleep 1;;
          o <- poll id;;
          verifyOrder_while n' maxTime totalMaxTime orderSideBuy orderSideSell
                            start id o true
        else
          t <- now;;
          over <- exceeds (t - start) totalMaxTime;;
          if over then
            cancelOrderById (Some (id_hex o));;
            d <- the_data;;
            od <- the_order_data;;
            log WARNING (ExceededTotalMaxTime totalMaxTime d (request_qty od));;
            ret (VBool true)
          else
            sleep 1;;
            o <- poll id;;
            verifyOrder_while n' maxTime totalMaxTime orderSideBuy orderSideSell
                              start id o timeout
      else verifyOrder_result o
  end.

End VerifyOrder.

Fixpoint verifyOrder (fuel : nat) (o : Order) (timeout : bool) {struct fuel}
  : Prog Value :=
  match fuel with
  | O => diverge
  | S fuel' =>
      maxTime <- opt "maxTime";;
      totalMaxTime <- opt "totalMaxTime";;
      let orderSideBuy := bool_decide (side o = BUY) in
      let orderSideSell := bool_decide (side o = SELL) in
      start <- now;;
      let id := client_order_id o in
      verifyOrder_while (verifyOrder fuel') fuel' maxTime totalMaxTime
                        orderSideBuy orderSideSell start id o timeout
  end.

(** *** [submitOrder] *)

Definition submitOrder (fuel : nat) : Prog unit :=
  fun s =>
    match order_data (self s) with
    | None => Ok tt s
    | Some _ =>
        (enabled <- opt "enabled";;
         if negb (truthy enabled) then
           d <- the_data;;
           od <- the_order_data;;
           log DEBUG (NotEnabledNotPlaced d (request_qty od))
         else
           od <- the_order_data;;
           o <- call (submit_order od) (EvSubmitOrder od);;
           set_order o;;
           verifyOrder fuel o false;;
           ret tt) s
    end.

Definition createOrder (fuel : nat) : Prog unit :=
  orders <- opt "orders";;
  n <- len orders;;
  (if (0 <? n)%nat then cancelOrderById None;; ret tt else ret tt);;
  flow <- createOrder_decision;;
  match flow with
  | Stop _ _ => ret tt
  | Proceed sd amount =>
      if Qeqb amount 0 then
        d <- the_data;;
        log INFO (ZeroOrdersRequested d)
      else if Qltb amount 0 then
        d <- the_data;;
        log INFO (NegativeOrdersRequested d amount)
      else
        match sd with
        | None => raise (UnboundLocalError "side")
        | Some sd =>
            limit <- opt "limit";;
            orderType amount sd (truthy limit);;
            submitOrder fuel
        end
  end.

(** *** [__init__] and the request handler *)

Definition new_instance (paper : bool) (req : string) : Prog unit :=
  fun s =>
    Ok tt (with_self {| options_shared := (0 <? size (settings s))%nat;
                        own_options := default_options;
                        paper := paper; req := req;
                        data := None; order_data := None; order := None |} s).

Definition update_options (newOptions : gmap string Value) : Prog unit :=
  fun s => Ok tt (with_options (newOptions ∪ options s) s).

Definition options_size : Prog nat := fun s => Ok (size (options s)) s.

Definition AutomatedTrader_init (fuel : nat) (paper : bool) (req : string)
           (newOptions : gmap string Value) : Prog unit :=
  new_instance paper req;;
  optCnt <- options_size;;
  update_options newOptions;;
  cnt <- options_size;;
  if negb (cnt =? optCnt)%nat then
    raise (Exception "Extra options found. Verify newOption keys match option keys")
  else
    enabled <- opt "enabled";;
    conflict <-
      (if truthy enabled then
         testMode <- opt "testMode";;
         ret (truthy testMode && negb paper)
       else ret false);;
    if conflict then
      log ERROR ConfigConflict;;
      raise (Exception "testMode and real money keys being used, exiting. Switch one or the other.")
    else
      enabled <- opt "enabled";;
      if truthy enabled then
        setData;;
        setOrders;;
        setPosition;;
        setBalance;;
        createOrder fuel
      else ret tt.

(** [respond()]: [req_data] is the text [str(request.data)], [paper] the
    flag of the module's [account]. *)
Definition respond (fuel : nat) (account_paper : bool) (req_data : string) : Prog Z :=
  log INFO (RecievedRequest req_data);;
  AutomatedTrader_init fuel account_paper req_data ∅;;
  ret 200%Z.

End Program.

(** ** A simulated broker

    A concrete environment to run the program on: a clock, the account
    cash, at most one open position, and the orders submitted so far
    (newest first).  A submitted order is filled at once or stays open,
    by [sim_fills]; a cancel request closes an open order when
    [sim_cancels] holds and is ignored otherwise; every status query takes
    [sim_latency] seconds. *)

Module Sim.

Record World : Type := {
  sim_clock : Q;
  sim_cash : Q;
  sim_position : option Position;
  sim_orders : list Order;
  sim_fills : bool;
  sim_cancels : bool;
  sim_latency : Q }.

Definition with_clock (t : Q) (w : World) : World :=
  {| sim_clock := t; sim_cash := sim_cash w; sim_position := sim_position w;
     sim_orders := sim_orders w; sim_fills := sim_fills w;
     sim_cancels := sim_cancels w; sim_latency := sim_latency w |}.

Definition with_orders (l : list Order) (w : World) : World :=
  {| sim_clock := sim_clock w; sim_cash := sim_cash w;
     sim_position := sim_position w; sim_orders := l; sim_fills := sim_fills w;
     sim_cancels := sim_cancels w; sim_latency := sim_latency w |}.

Definition serial (n : nat) : string :=
  String (ascii_of_nat (Nat.add 48 n)) EmptyString.

Definition new_order (w : World) (r : OrderRequest) : Order :=
  let n := length (sim_orders w) in
  {| id_hex := "id" ++ serial n;
     client_order_id := "client" ++ serial n;
     symbol := request_symbol r;
     side := request_side r;
     qty := request_qty r;
     filled_qty := if sim_fills w then request_qty r else 0;
     filled_at := if sim_fills w then Some (sim_clock w) else None;
     failed_at := None;
     canceled_at := None |}.

Definition cancel (t : Q) (id : string) (o : Order) : Order :=
  if String.eqb (id_hex o) id && is_open o then
    {| id_hex := id_hex o; client_order_id := client_order_id o;
       symbol := symbol o; side := side o; qty := qty o;
       filled_qty := filled_qty o; filled_at := filled_at o;
       failed_at := failed_at o; canceled_at := Some t |}
  else o.

Definition wanted (symbols : option (list (option string))) (o : Order) : bool :=
  match symbols with
  | None => true
  | Some l => existsb (fun sy => match sy, symbol o with
                                 | Some a, Some b => String.eqb a b
                                 | None, None => true
                                 | _, _ => false
                                 end) l
  end.

#[global] Instance environment : Environment World := {|
  time_time w := sim_clock w;
  time_sleep d w := with_clock (sim_clock w + d) w;
  get_orders symbols w :=
    (inr (filter (fun o => is_open o && wanted symbols o) (sim_orders w)), w);
  get_open_position sy w :=
    (match sim_position w with
     | Some p => inr p
     | None => inl (BrokerError "position does not exist")
     end, w);
  get_account w := (inr {| cash := sim_cash w |}, w);
  submit_order r w :=
    let o := new_order w r in (inr o, with_orders (o :: sim_orders w) w);
  get_order_by_client_id id w :=
    (match find (fun o => String.eqb (client_order_id o) id) (sim_orders w) with
     | Some o => inr o
     | None => inl (BrokerError "order not found")
     end, with_clock (sim_clock w + sim_latency w) w);
  cancel_order_by_id id w :=
    (inr tt,
     if sim_cancels w
     then with_orders (map (cancel (sim_clock w) id) (sim_orders w)) w
     else w) |}.

(** A process that has just started: nothing traced, no trader yet. *)
Definition boot (w : World) (settings : gmap string Value) : State World :=
  {| world := w; trace := []; settings := settings;
     self := {| options_shared := false; own_options := ∅; paper := true;
                req := EmptyString; data := None; order_data := None;
                order := None |} |}.

Definition calm : World :=
  {| sim_clock := 0; sim_cash := 100000; sim_position := None;
     sim_orders := []; sim_fills := true; sim_cancels := true;
     sim_latency := 0 |}.

(** A complete [settings] dictionary: the defaults of the source and
    the three keys [verifyOrder] reads besides. *)
Definition demo_settings : gmap string Value :=
  <["totalMaxTime" := VNum 20]>
    (<["buyTimeout" := VStr "Cancel"]>
       (<["sellTimeout" := VStr "Market"]> default_options)).

Definition final_trace {A} (r : Result World A) : list Event :=
  match r with
  | Ok _ s | Raise _ s => trace s
  | Diverge => []
  end.

End Sim.

(** ** Vocabulary of the properties *)

(** An option that is present and true (in Python's sense), or present
    and false. *)
Definition option_true (o : gmap string Value) (k : string) : Prop :=
  exists v, o !! k = Some v /\ truthy v = true.
Definition option_false (o : gmap string Value) (k : string) : Prop :=
  exists v, o !! k = Some v /\ truthy v = false.

(** The dictionary [self.options] is bound to in [__init__]: the module's
    [settings] when that is not empty, else the literal of the
    constructor; and the dictionary it denotes once [newOptions] has been
    merged into it. *)
Definition base_options {W} (s : State W) : gmap string Value :=
  if (0 <? size (settings s))%nat then settings s else default_options.

Definition effective_options {W} (s : State W) (newOptions : gmap string Value)
  : gmap string Value :=
  newOptions ∪ base_options s.



(** A trader of the simulated process whose [setData] has produced [d]. *)
Definition parsed (d : Data) (settings : gmap string Value) (w : Sim.World)
  : State Sim.World :=
  with_self (with_data d (self (Sim.boot w settings))) (Sim.boot w settings).

Definition shared_parsed (d : Data) (settings : gmap string Value) (w : Sim.World)
  : State Sim.World :=
  {| world := w; trace := []; settings := settings;
     self := {| options_shared := true; own_options := default_options;
                paper := true; req := EmptyString; data := Some d;
                order_data := None; order := None |} |}.

Definition msft_buy : Data :=
  {| action := Some "buy"; position := None; stock := Some "MSFT";
     price := 33757 # 100 |}.

(** The state a run ends in ([dflt] when it diverges). *)
Definition final_state {W A} (r : Result W A) (dflt : State W) : State W :=
  match r with
  | Ok _ s | Raise _ s => s
  | Diverge => dflt
  end.

(** [effectiveBalance] of the specification. *)
Definition effective_balance (testMode : Value) (balance : Q) : Q :=
  if truthy testMode then 100000
  else if Qltb balance 0 then 0 else balance.

(** The whole-share amount of lines 274-276. *)
Definition cash_sized (testMode : Value) (balance buyPerc referencePrice : Q) : Q :=
  inject_Z (py_int (effective_balance testMode balance * buyPerc / referencePrice)).

(** [posQty] of lines 279-283 for a well-formed [positions] option. *)
Definition held (positions : Value) : Q :=
  match positions with
  | VPosition p => position_qty p
  | _ => 0
  end.

Definition long_exit (d : Data) : bool :=
  (text_is (action d) "Bear" || text_is (action d) "sell" || text_is (action d) "Close")
  && (text_is (position d) "Long" || is_None (position d)).

(** *** The decision table of the specification (section 4.2)

    Written from the words of the specification, to be compared with
    [createOrder]. *)



Definition lower_text (t : string) : string :=
  string_of_list_ascii (map lower (list_ascii_of_string t)).







(** *** States of the simulated process *)

(** A trader constructed for the request text [req], sharing the
    module's [settings], before [setData] has run. *)
Definition request (req : string) (settings : gmap string Value) (w : Sim.World)
  : State Sim.World :=
  {| world := w; trace := []; settings := settings;
     self := {| options_shared := true; own_options := default_options;
                paper := true; req := req; data := None;
                order_data := None; order := None |} |}.

(** The same trader once [setData] has parsed the request. *)
Definition parsed_request (req : string) (settings : gmap string Value) (w : Sim.World)
  : State Sim.World :=
  final_state (setData (request req settings w)) (request req settings w).

(** Settings as they stand when [createOrder] starts: the position and
    the balance have been fetched. *)
Definition fetched (positions : Value) (testMode : bool) (balance : Q)
  : gmap string Value :=
  <["positions" := positions]>
    (<["balance" := VNum balance]>
       (<["testMode" := VBool testMode]> Sim.demo_settings)).



Definition half_share : Position := {| position_qty := 1 # 2 |}.

Definition holding (p : Position) : Sim.World :=
  {| Sim.sim_clock := 0; Sim.sim_cash := 100000; Sim.sim_position := Some p;
     Sim.sim_orders := []; Sim.sim_fills := true; Sim.sim_cancels := true;
     Sim.sim_latency := 0 |}.

Definition clsk (a : string) (p : option string) : Data :=
  {| action := Some a; position := p; stock := Some "CLSK"; price := 803 # 200 |}.

(** The order requests submitted in a trace, newest first. *)
Definition submitted (t : list Event) : list OrderRequest :=
  omap (fun e => match e with EvSubmitOrder r => Some r | _ => None end) t.

(** *** Invariants of runs

    [preserves I J D m]: started in a state of [I], the program [m]
    returns in a state of [I] or raises in a state of [J]; [D] is what it
    takes to run for ever. *)
Definition preserves {W A} (I J : State W -> Prop) (D : Prop) (m : M W A) : Prop :=
  forall s : State W,
    I s ->
    match m s with
    | Ok _ s' => I s'
    | Raise _ s' => J s'
    | Diverge => D
    end.

Definition anywhere {W} : State W -> Prop := fun _ => True.



(** *** Dry run *)





Definition dry_settings : gmap string Value :=
  <["enabled" := VBool false]> Sim.demo_settings.


(** *** Supervision *)






(** The events only the per-order timeout branch (lines 436-484) and what
    it calls produce: its log records, its prints and the submission of
    a replacement order. *)
Definition escalation_event (e : Event) : bool :=
  match e with
  | EvLog _ (ExceededMaxTime _ _ _)
  | EvLog _ (OrderCancelFailed _ _)
  | EvLog _ (TimeoutMarketSucceeded _ _)
  | EvLog _ (TimeoutMarketFailed _ _)
  | EvLog _ TimeoutSettingNotFound
  | EvPrint _
  | EvSubmitOrder _ => true
  | _ => false
  end.

(** The trace has gained no escalation event since it stood at [t0]. *)
Definition calm_since {W} (t0 : list Event) (s : State W) : Prop :=
  exists added,
    trace s = (added ++ t0)%list
    /\ Forall (fun e => escalation_event e = false) added.

(** A program all of whose runs that end add no escalation event to the
    trace. *)
Definition unescalated {W A} (m : M W A) : Prop :=
  forall t0 : list Event, preserves (calm_since t0) (calm_since t0) True m.

(** *** A broker at which nothing ever happens

    The world is the clock.  Every order is reported open for ever,
    cancel requests are accepted and ignored, and only [time.sleep] takes
    time. *)

Module Steady.

Definition World : Type := Q.

Definition the_order : Order :=
  {| id_hex := "id0"; client_order_id := "client0"; symbol := Some "MSFT";
     side := BUY; qty := 59; filled_qty := 0;
     filled_at := None; failed_at := None; canceled_at := None |}.

#[global] Instance environment : Environment World := {|
  time_time w := w;
  time_sleep d w := w + d;
  get_orders symbols w := (inr [], w);
  get_open_position sy w := (inl (BrokerError "position does not exist"), w);
  get_account w := (inr {| cash := 100000 |}, w);
  submit_order r w := (inr the_order, w);
  get_order_by_client_id id w := (inr the_order, w);
  cancel_order_by_id id w := (inr tt, w) |}.

(** The trader at the moment [submitOrder] hands [the_order] to
    [verifyOrder]. *)
Definition supervising (settings : gmap string Value) : State World :=
  {| world := 0; trace := []; settings := settings;
     self := {| options_shared := true; own_options := default_options;
                paper := true; req := EmptyString; data := Some msft_buy;
                order_data := Some (LimitOrderRequest (Some "MSFT") (16887 # 50) 59 BUY GTC);
                order := Some the_order |} |}.

End Steady.

(** Settings with the fail-safe tighter than the per-order timeout. *)
Definition tight_settings (totalMaxTime : Q) : gmap string Value :=
  <["totalMaxTime" := VNum totalMaxTime]> Sim.demo_settings.

(** *** An order that does not fill *)

Definition resting_order : Order :=
  {| id_hex := "id0"; client_order_id := "client0"; symbol := Some "MSFT";
     side := BUY; qty := 59; filled_qty := 0;
     filled_at := None; failed_at := None; canceled_at := None |}.

(** The simulated broker with [resting_order] on its book. *)
Definition stalled : Sim.World :=
  {| Sim.sim_clock := 0; Sim.sim_cash := 100000; Sim.sim_position := None;
     Sim.sim_orders := [resting_order]; Sim.sim_fills := false;
     Sim.sim_cancels := true; Sim.sim_latency := 0 |}.

(** The trader at the moment [submitOrder] hands [resting_order] to
    [verifyOrder]. *)
Definition supervising (settings : gmap string Value) : State Sim.World :=
  {| world := stalled; trace := []; settings := settings;
     self := {| options_shared := true; own_options := default_options;
                paper := true; req := EmptyString; data := Some msft_buy;
                order_data := Some (LimitOrderRequest (Some "MSFT") (16887 # 50) 59 BUY GTC);
                order := Some resting_order |} |}.



(** The state [createOrder_amount] leaves behind. *)
Definition after_amount {W} (testMode : Value) (balance : Q) (s : State W) : State W :=
  if truthy testMode then with_options (<["balance" := VNum 100000]> (options s)) s
  else if Qltb balance 0 then
    with_options (<["balance" := VNum 0]> (options s))
                 (with_trace (EvLog WARNING (NegativeBalance balance) :: trace s) s)
  else s.

(** *** Termination *)

(** The invariant of a supervision that started no later than [t0] with
    the options [opts]: the options are untouched and the clock has not
    gone back. *)
Definition steady {W} `{Environment W} (opts : gmap string Value) (t0 : Q)
           (s : State W) : Prop :=
  options s = opts /\ t0 <= time_time (world s).

(** A program that returns or raises, and keeps the invariant when it
    returns. *)
Definition ends {W A} `{Environment W} (opts : gmap string Value) (m : M W A) : Prop :=
  forall t0 : Q, preserves (steady opts t0) anywhere False m.

(** Fuel as a number of seconds. *)
Definition seconds (n : nat) : Q := inject_Z (Z.of_nat n).

(** *** What a regular expression matches

    [matches r t c0 c1]: [r] matches the text [t], and the groups in it
    turn the captures [c0] into [c1]. *)
Inductive matches : regex -> string -> captures -> captures -> Prop :=
| matches_Empty (c0 : captures) : matches Empty EmptyString c0 c0
| matches_Lit (c a : ascii) (c0 : captures) :
    same_char a c = true -> matches (Lit c) (String a EmptyString) c0 c0
| matches_Dot (a : ascii) (c0 : captures) :
    Ascii.eqb a newline = false -> matches Dot (String a EmptyString) c0 c0
| matches_Class (cs : list ascii) (a : ascii) (c0 : captures) :
    existsb (same_char a) cs = true -> matches (Class cs) (String a EmptyString) c0 c0
| matches_Seq (r1 r2 : regex) (t1 t2 : string) (c0 c1 c2 : captures) :
    matches r1 t1 c0 c1 -> matches r2 t2 c1 c2 -> matches (Seq r1 r2) (t1 ++ t2) c0 c2
| matches_Alt_l (r1 r2 : regex) (t : string) (c0 c1 : captures) :
    matches r1 t c0 c1 -> matches (Alt r1 r2) t c0 c1
| matches_Alt_r (r1 r2 : regex) (t : string) (c0 c1 : captures) :
    matches r2 t c0 c1 -> matches (Alt r1 r2) t c0 c1
| matches_Group (i : nat) (r : regex) (t : string) (c0 c1 : captures) :
    matches r t c0 c1 -> matches (Group i r) t c0 (<[i := Some t]> c1)
| matches_Star_stop (greedy : bool) (r : regex) (c0 : captures) :
    matches (Star greedy r) EmptyString c0 c0
| matches_Star_more (greedy : bool) (r : regex) (t1 t2 : string) (c0 c1 c2 : captures) :
    matches r t1 c0 c1 -> matches (Star greedy r) t2 c1 c2 ->
    matches (Star greedy r) (t1 ++ t2) c0 c2.

(** *** Texts *)

Definition all_chars (p : ascii -> bool) (t : string) : bool :=
  forallb p (list_ascii_of_string t).

Definition no_newline (a : ascii) : bool := negb (Ascii.eqb a newline).

(** A character of the class [[0-9.]]. *)
Definition price_char (a : ascii) : bool :=
  existsb (Ascii.eqb a) (list_ascii_of_string "0123456789.").

(** The test a one-character expression makes. *)
Definition char_test (r : regex) : option (ascii -> bool) :=
  match r with
  | Lit c => Some (fun a => same_char a c)
  | Dot => Some no_newline
  | Class cs => Some (fun a => existsb (same_char a) cs)
  | _ => None
  end.

(** *** The alerts [setData] reads *)

(** The text a custom alert is recognised by: [order], the action, the
    symbol, the price, with the separators of the pattern. *)
Definition custom_alert (t a sym p : string) : Prop :=
  exists o lb rb : string,
    t = o ++ a ++ " | " ++ sym ++ "@" ++ lb ++ p ++ rb ++ " |"
    /\ lower_text o = "order "
    /\ (lower_text a = "buy" \/ lower_text a = "sell")
    /\ sym <> EmptyString /\ all_chars no_newline sym = true
    /\ all_chars (Ascii.eqb "[") lb = true
    /\ p <> EmptyString /\ all_chars price_char p = true
    /\ all_chars (Ascii.eqb "]") rb = true.

(** The text an alert of the indicator is recognised by: the action,
    at least one character, the position hint if it stands right there,
    at least one more character, then symbol and price as above. *)
Definition ldc_alert (t a : string) (hint : option string) (sym p : string) : Prop :=
  exists u h v lb rb : string,
    t = a ++ u ++ h ++ v ++ "| " ++ sym ++ "@" ++ lb ++ p ++ rb ++ " |"
    /\ (lower_text a = "bear" \/ lower_text a = "bull"
        \/ lower_text a = "open" \/ lower_text a = "close")
    /\ u <> EmptyString /\ all_chars no_newline u = true
    /\ (hint = None /\ h = EmptyString
        \/ hint = Some h /\ (lower_text h = "long" \/ lower_text h = "short"))
    /\ v <> EmptyString /\ all_chars no_newline v = true
    /\ sym <> EmptyString /\ all_chars no_newline sym = true
    /\ all_chars (Ascii.eqb "[") lb = true
    /\ p <> EmptyString /\ all_chars price_char p = true
    /\ all_chars (Ascii.eqb "]") rb = true.

(** *** What a run adds to the trace *)

Definition is_submission (e : Event) : bool :=
  match e with EvSubmitOrder _ => true | _ => false end.

Definition no_submission (e : Event) : bool := negb (is_submission e).

(** The events of a supervision that has nothing to escalate: the status
    query, the second of sleep, the cancel of the fail-safe, and the log
    records of the outcome. *)
Definition supervision_event (e : Event) : bool :=
  match e with
  | EvCancelOrderById _ | EvSleep _ | EvGetOrderByClientId _ _ => true
  | EvLog _ (OrderCanceled _ _)
  | EvLog _ (OrderFailed _ _)
  | EvLog _ (OrderFilled _ _)
  | EvLog _ (ExceededTotalMaxTime _ _ _)
  | EvLog _ (TradingNotEnabledNotCanceled _) => true
  | _ => false
  end.

(** The trace has gained only events of [p] since it stood at [t0]. *)
Definition since {W} (p : Event -> bool) (t0 : list Event) (s : State W) : Prop :=
  exists added,
    trace s = (added ++ t0)%list /\ Forall (fun e => p e = true) added.

(** A property of states that an event of [p] and a move of the world
    leave as it is. *)
Record stable {W} (p : Event -> bool) (Inv : State W -> Prop) : Prop := {
  stable_event : forall e s, p e = true -> Inv s -> Inv (with_trace (e :: trace s) s);
  stable_world : forall w s, Inv s -> Inv (with_world w s) }.

Arguments stable_event {W p Inv} _ _ _ _ _.
Arguments stable_world {W p Inv} _ _ _ _.

(** *** The orders placed

    [hoare P m Q R]: started in a state of [P], the program [m] returns
    [a] in a state of [Q a], or raises in a state of [R], if it ends. *)
Definition hoare {W A} (P : State W -> Prop) (m : M W A)
           (Q : A -> State W -> Prop) (R : State W -> Prop) : Prop :=
  forall s : State W,
    P s ->
    match m s with
    | Ok a s' => Q a s'
    | Raise _ s' => R s'
    | Diverge => True
    end.

(** A market order for the symbol of the alert. *)
Definition market_for (d : Data) (r : OrderRequest) : Prop :=
  exists q sd, r = MarketOrderRequest (stock d) q sd GTC.

Definition at_most_one_market (d : Data) (l : list OrderRequest) : Prop :=
  l = [] \/ exists m, l = [m] /\ market_for d m.

(** The orders one alert leads to, newest first: none; or one, for the
    symbol of the alert and a positive quantity; or that one and, after
    it, a market order for the same symbol. *)
Definition placed (d : Data) (l : list OrderRequest) : Prop :=
  l = []
  \/ exists r,
      request_symbol r = stock d
      /\ 0 < request_qty r
      /\ (l = [r] \/ exists m, l = [m; r] /\ market_for d m).

(** After the request [r]: nothing, or [r], or [r] and a market order. *)
Definition after_request (d : Data) (r : OrderRequest) (l : list OrderRequest) : Prop :=
  l = [] \/ l = [r] \/ exists m, l = [m; r] /\ market_for d m.

(** The trader works on the alert [d], and the orders submitted since
    the trace stood at [t0] are as [P] says. *)
Definition placing {W} (d : Data) (t0 : list Event) (P : list OrderRequest -> Prop)
           (s : State W) : Prop :=
  data (self s) = Some d
  /\ exists added, trace s = (added ++ t0)%list /\ P (submitted added).

(** *** One request *)

(** Where the handling of a request stands: the orders submitted since
    the trace stood at [t0] are none, while there is no alert; once
    [setData] has stored the alert [d], they are as [placed d] says.
    [Phi] is what is known of the alert. *)
Definition handled {W} (Phi : Data -> Prop) (t0 : list Event) (s : State W) : Prop :=
  exists added,
    trace s = (added ++ t0)%list
    /\ (data (self s) = None /\ submitted added = []
        \/ exists d, data (self s) = Some d /\ Phi d /\ placed d (submitted added)).

(** Before [setData]: the request is stored, no alert yet, no order. *)
Definition receiving {W} (req0 : string) (t0 : list Event) (s : State W) : Prop :=
  data (self s) = None
  /\ req (self s) = req0
  /\ exists added, trace s = (added ++ t0)%list /\ submitted added = [].

(** *** The policy [Cancel] *)

(** The option that holds the timeout policy for the side of an order. *)
Definition timeout_setting (o : Order) : string :=
  match side o with BUY => "buyTimeout" | SELL => "sellTimeout" end.

(** The options are [opts], and no order was submitted since the trace
    stood at [t0]. *)
Definition settled {W} (opts : gmap string Value) (t0 : list Event) (s : State W)
  : Prop :=
  options s = opts
  /\ exists added, trace s = (added ++ t0)%list /\ submitted added = [].

(** *** More states of the simulated process *)

(** An option the trader does not know. *)
Definition misspelt : gmap string Value := {["Short" := VBool true]}.

(** An alert priced 0. *)
Definition msft_free : Data :=
  {| action := Some "buy"; position := None; stock := Some "MSFT"; price := 0 |}.

(** A trader with [resting_order] among the open orders of its symbol. *)
Definition with_open_order : State Sim.World :=
  shared_parsed msft_buy (<["orders" := VOrders [resting_order]]> Sim.demo_settings)
                stalled.

(** The settings of real-money trading: two of the keys. *)
Definition real_settings : gmap string Value :=
  <["testMode" := VBool false]> {["buyPerc" := VNum (1 # 10)]}.

(** * Properties *)

(** ** Reasoning about states and the monad *)

Section StateLemmas.

Context {W : Type} `{Environment W}.

Lemma options_with_options (o : gmap string Value) (s : State W) :
  options (with_options o s) = o.
Proof. unfold options, with_options. destruct (options_shared (self s)) eqn:E; simpl; rewrite ?E; reflexivity. Qed.

Lemma world_with_options (o : gmap string Value) (s : State W) :
  world (with_options o s) = world s.
Proof. unfold with_options. destruct (options_shared (self s)); reflexivity. Qed.

Lemma trace_with_options (o : gmap string Value) (s : State W) :
  trace (with_options o s) = trace s.
Proof. unfold with_options. destruct (options_shared (self s)); reflexivity. Qed.

Lemma data_with_options (o : gmap string Value) (s : State W) :
  data (self (with_options o s)) = data (self s).
Proof. unfold with_options. destruct (options_shared (self s)); reflexivity. Qed.

Lemma order_data_with_options (o : gmap string Value) (s : State W) :
  order_data (self (with_options o s)) = order_data (self s).
Proof. unfold with_options. destruct (options_shared (self s)); reflexivity. Qed.

Lemma shared_with_options (o : gmap string Value) (s : State W) :
  options_shared (self (with_options o s)) = options_shared (self s).
Proof. unfold with_options. destruct (options_shared (self s)) eqn:E; simpl; rewrite ?E; reflexivity. Qed.

Lemma options_with_trace (t : list Event) (s : State W) :
  options (with_trace t s) = options s.
Proof. reflexivity. Qed.

Lemma options_with_world (w : W) (s : State W) :
  options (with_world w s) = options s.
Proof. reflexivity. Qed.

Lemma options_with_data (d : Data) (s : State W) :
  options (with_self (with_data d (self s)) s) = options s.
Proof. reflexivity. Qed.

Lemma options_with_order_data (r : OrderRequest) (s : State W) :
  options (with_self (with_order_data r (self s)) s) = options s.
Proof. reflexivity. Qed.

Lemma options_with_order (o : Order) (s : State W) :
  options (with_self (with_order o (self s)) s) = options s.
Proof. reflexivity. Qed.

Lemma bind_ok {A B} (m : M W A) (f : A -> M W B) (s s' : State W) (a : A) :
  m s = Ok a s' -> bind m f s = f a s'.
Proof. unfold bind. intros ->. reflexivity. Qed.

Lemma bind_raise {A B} (m : M W A) (f : A -> M W B) (s s' : State W) (e : Exn) :
  m s = Raise e s' -> bind m f s = Raise e s'.
Proof. unfold bind. intros ->. reflexivity. Qed.

Lemma bind_inv_ok {A B} (m : M W A) (f : A -> M W B) (s s2 : State W) (b : B) :
  bind m f s = Ok b s2 -> exists a s1, m s = Ok a s1 /\ f a s1 = Ok b s2.
Proof.
  unfold bind. destruct (m s) as [a s1|e s1|]; intros E; try discriminate.
  exists a, s1. split; [reflexivity | exact E].
Qed.

Lemma opt_ok (k : string) (v : Value) (s : State W) :
  options s !! k = Some v -> opt k s = Ok v s.
Proof. unfold opt. intros ->. reflexivity. Qed.

Lemma opt_inv (k : string) (v : Value) (s s' : State W) :
  opt k s = Ok v s' -> s' = s /\ options s !! k = Some v.
Proof.
  unfold opt. destruct (options s !! k) eqn:E; intros E'; inversion E'; subst; auto.
Qed.

Lemma the_data_ok (d : Data) (s : State W) :
  data (self s) = Some d -> the_data s = Ok d s.
Proof. unfold the_data. intros ->. reflexivity. Qed.

(** Rewriting rules for running a program from a known state. *)

Lemma bind_bind {A B C} (m : M W A) (f : A -> M W B) (g : B -> M W C) (s : State W) :
  bind (bind m f) g s = bind m (fun x => bind (f x) g) s.
Proof. unfold bind. destruct (m s); reflexivity. Qed.

Lemma bind_ret {A B} (a : A) (f : A -> M W B) (s : State W) :
  bind (ret a) f s = f a s.
Proof. reflexivity. Qed.

Lemma bind_if {A B} (b : bool) (m1 m2 : M W A) (f : A -> M W B) (s : State W) :
  bind (if b then m1 else m2) f s = if b then bind m1 f s else bind m2 f s.
Proof. destruct b; reflexivity. Qed.

Lemma bind_raise_now {A B} (e : Exn) (f : A -> M W B) (s : State W) :
  bind (raise e) f s = Raise e s.
Proof. reflexivity. Qed.

Lemma bind_opt {B} (k : string) (v : Value) (f : Value -> M W B) (s : State W) :
  options s !! k = Some v -> bind (opt k) f s = f v s.
Proof. intros E. apply bind_ok, opt_ok, E. Qed.

Lemma bind_opt_missing {B} (k : string) (f : Value -> M W B) (s : State W) :
  options s !! k = None -> bind (opt k) f s = Raise (KeyError k) s.
Proof. intros E. unfold bind, opt. rewrite E. reflexivity. Qed.

Lemma bind_set_opt {B} (k : string) (v : Value) (f : unit -> M W B) (s : State W) :
  bind (set_opt k v) f s = f tt (with_options (<[k := v]> (options s)) s).
Proof. reflexivity. Qed.

Lemma bind_emit {B} (e : Event) (f : unit -> M W B) (s : State W) :
  bind (emit e) f s = f tt (with_trace (e :: trace s) s).
Proof. reflexivity. Qed.

Lemma bind_the_data {B} (d : Data) (f : Data -> M W B) (s : State W) :
  data (self s) = Some d -> bind the_data f s = f d s.
Proof. intros E. apply bind_ok, the_data_ok, E. Qed.

Lemma bind_the_order_data {B} (r : OrderRequest) (f : OrderRequest -> M W B) (s : State W) :
  order_data (self s) = Some r -> bind the_order_data f s = f r s.
Proof. intros E. unfold bind, the_order_data. rewrite E. reflexivity. Qed.

Lemma bind_set_order_data {B} (r : OrderRequest) (f : unit -> M W B) (s : State W) :
  bind (set_order_data r) f s = f tt (with_self (with_order_data r (self s)) s).
Proof. reflexivity. Qed.

Lemma bind_as_num {B} (x : Q) (f : Q -> M W B) (s : State W) :
  bind (as_num (VNum x)) f s = f x s.
Proof. reflexivity. Qed.

Lemma bind_now {B} (f : Q -> M W B) (s : State W) :
  bind now f s = f (time_time (world s)) s.
Proof. reflexivity. Qed.

Lemma bind_sleep {B} (d : Q) (f : unit -> M W B) (s : State W) :
  bind (sleep d) f s
  = f tt (with_world (time_sleep d (world s)) (with_trace (EvSleep d :: trace s) s)).
Proof. reflexivity. Qed.

End StateLemmas.

Create Rewrite HintDb state.
#[global] Hint Rewrite @options_with_options @world_with_options @trace_with_options
  @data_with_options @order_data_with_options @shared_with_options
  @options_with_trace @options_with_world @options_with_data
  @options_with_order_data @options_with_order : state.

(** [lookup_options] closes a goal [options s !! k = Some ?v] for a state
    built from updates of a state whose options are known; [mrun] runs
    the program at the head of the goal as far as the state determines
    it. *)
Ltac lookup_options :=
  autorewrite with state;
  repeat first [ rewrite lookup_insert_eq | rewrite lookup_insert_ne by discriminate ];
  first [ reflexivity | eassumption ].

Ltac known_attribute :=
  autorewrite with state; simpl; first [ reflexivity | eassumption ].

Ltac mstep :=
  first
    [ rewrite bind_bind
    | rewrite bind_ret
    | rewrite bind_if
    | rewrite bind_raise_now
    | rewrite bind_set_opt
    | rewrite bind_emit
    | rewrite bind_set_order_data
    | rewrite bind_now
    | rewrite bind_as_num
    | rewrite bind_sleep
    | erewrite bind_opt by lookup_options
    | erewrite bind_the_data by known_attribute
    | erewrite bind_the_order_data by known_attribute ].

Ltac mrun := unfold log, print; repeat mstep.

(** ** Invariants of runs *)

Section Invariants.

Context {W : Type} `{Environment W}.

Variables (I J : State W -> Prop) (D : Prop).

Hypothesis raising : forall s, I s -> J s.

Lemma preserves_ret {A} (a : A) : preserves I J D (ret a).
Proof. intros s Hs. exact Hs. Qed.

Lemma preserves_raise {A} (e : Exn) : preserves I J D (raise (A := A) e).
Proof. intros s Hs. apply raising, Hs. Qed.

Lemma preserves_bind {A B} (m : M W A) (f : A -> M W B) :
  preserves I J D m -> (forall a, preserves I J D (f a)) -> preserves I J D (bind m f).
Proof.
  intros Hm Hf s Hs. unfold bind. specialize (Hm s Hs).
  destruct (m s) as [a s1|e s1|]; auto. apply Hf, Hm.
Qed.

Lemma preserves_if {A} (b : bool) (m1 m2 : M W A) :
  preserves I J D m1 -> preserves I J D m2 -> preserves I J D (if b then m1 else m2).
Proof. destruct b; auto. Qed.

(** A program that returns or raises in the state it started in. *)
Lemma preserves_unchanged {A} (m : M W A) :
  (forall s, match m s with Ok _ s' | Raise _ s' => s' = s | Diverge => False end) ->
  preserves I J D m.
Proof.
  intros Hm s Hs. specialize (Hm s).
  destruct (m s) as [a s'|e s'|]; [subst s'; auto | subst s'; auto | contradiction].
Qed.

Lemma preserves_opt (k : string) : preserves I J D (opt k).
Proof.
  apply preserves_unchanged. intros s. unfold opt. destruct (options s !! k); reflexivity.
Qed.

Lemma preserves_the_data : preserves I J D the_data.
Proof.
  apply preserves_unchanged. intros s. unfold the_data.
  destruct (data (self s)); reflexivity.
Qed.

Lemma preserves_the_order_data : preserves I J D the_order_data.
Proof.
  apply preserves_unchanged. intros s. unfold the_order_data.
  destruct (order_data (self s)); reflexivity.
Qed.

Lemma preserves_as_num (v : Value) : preserves I J D (as_num v).
Proof. apply preserves_unchanged. intros s. destruct v; reflexivity. Qed.

Lemma preserves_as_orders (v : Value) : preserves I J D (as_orders v).
Proof. apply preserves_unchanged. intros s. destruct v; reflexivity. Qed.

Lemma preserves_len (v : Value) : preserves I J D (len v).
Proof. apply preserves_unchanged. intros s. destruct v; reflexivity. Qed.

Lemma preserves_py_div (x y : Q) : preserves I J D (py_div x y).
Proof.
  apply preserves_unchanged. intros s. unfold py_div. destruct (Qeqb y 0); reflexivity.
Qed.

Lemma preserves_now : preserves I J D now.
Proof. apply preserves_unchanged. intros s. reflexivity. Qed.

Lemma preserves_for_each {A} (xs : list A) (body : A -> M W unit) :
  (forall x, preserves I J D (body x)) -> preserves I J D (for_each xs body).
Proof.
  intros Hb. induction xs as [|x xs IH]; simpl.
  - apply preserves_ret.
  - apply preserves_bind; [apply Hb | intros _; exact IH].
Qed.

(** The programs that change the state, each under the condition that
    its change keeps the invariant. *)

Lemma preserves_emit (e : Event) :
  (forall s, I s -> I (with_trace (e :: trace s) s)) -> preserves I J D (emit e).
Proof. intros He s Hs. apply He, Hs. Qed.

Lemma preserves_set_opt (k : string) (v : Value) :
  (forall s, I s -> I (with_options (<[k := v]> (options s)) s)) ->
  preserves I J D (set_opt k v).
Proof. intros He s Hs. apply He, Hs. Qed.

Lemma preserves_set_order_data (r : OrderRequest) :
  (forall s, I s -> I (with_self (with_order_data r (self s)) s)) ->
  preserves I J D (set_order_data r).
Proof. intros He s Hs. apply He, Hs. Qed.

Lemma preserves_sleep (d : Q) :
  (forall s, I s -> I (with_world (time_sleep d (world s))
                                  (with_trace (EvSleep d :: trace s) s))) ->
  preserves I J D (sleep d).
Proof. intros He s Hs. apply He, Hs. Qed.

Lemma preserves_call {A} (op : W -> (Exn + A) * W) (ev : Event) :
  (forall s, I s -> I (with_world (snd (op (world s))) (with_trace (ev :: trace s) s))) ->
  preserves I J D (call op ev).
Proof.
  intros He s Hs. specialize (He s Hs). unfold call.
  destruct (op (world s)) as [[e|a] w']; simpl in He; auto.
Qed.

Lemma preserves_poll (id : string) :
  (forall s seen,
      I s -> I (with_world (snd (get_order_by_client_id id (world s)))
                           (with_trace (EvGetOrderByClientId id seen :: trace s) s))) ->
  preserves I J D (poll id).
Proof.
  intros He s Hs. unfold poll.
  pose proof (fun seen => He s seen Hs) as Hseen.
  destruct (get_order_by_client_id id (world s)) as [[e|o] w']; simpl in Hseen; auto.
Qed.

End Invariants.

(** [preserved_with known side] takes a program apart into the programs
    above; [known] is for the methods that have a lemma of their own,
    [side] is to show that the invariant at hand survives a change of the
    state, or holds where the program raises. *)
Ltac preserved_with known side :=
  unfold log, print;
  repeat first
    [ known
    | apply preserves_ret
    | apply preserves_raise; side
    | apply preserves_opt; side
    | apply preserves_the_data; side
    | apply preserves_the_order_data; side
    | apply preserves_as_num; side
    | apply preserves_as_orders; side
    | apply preserves_len; side
    | apply preserves_py_div; side
    | apply preserves_now; side
    | apply preserves_emit; side
    | apply preserves_set_opt; side
    | apply preserves_set_order_data; side
    | apply preserves_sleep; side
    | apply preserves_call; side
    | apply preserves_poll; side
    | apply preserves_for_each; intros ?
    | apply preserves_bind; [|intros ?]
    | apply preserves_if
    | match goal with
      | |- preserves _ _ _ (match ?x with _ => _ end) => destruct x
      end ].

Ltac preserved side := preserved_with ltac:(fail) side.

(** ** Configuration conflict (C10) *)

Section Conflict.

Context {W : Type} `{Environment W}.

(** C10.  With [enabled] and [testMode] true and real-money credentials
    ([paper = False]) the constructor raises, and it has not called the
    broker by then: the world is as it was, and whatever was added to
    the trace is no broker call. *)
Theorem init_conflict_raises_before_any_broker_call
    (fuel : nat) (req : string) (newOptions : gmap string Value) (s : State W) :
  option_true (effective_options s newOptions) "enabled" ->
  option_true (effective_options s newOptions) "testMode" ->
  exists e s' added,
    AutomatedTrader_init fuel false req newOptions s = Raise e s'
    /\ world s' = world s
    /\ trace s' = (added ++ trace s)%list
    /\ Forall (fun ev => broker_call ev = false) added.
Proof.
  intros (ve & Hen & Ten) (vt & Htm & Ttm).
  unfold AutomatedTrader_init, new_instance, update_options, options_size.
  unfold bind at 1 2 3 4.
  set (s0 := with_self _ s).
  assert (Hopt : options (with_options (newOptions ∪ options s0) s0)
                 = effective_options s newOptions).
  { rewrite options_with_options. unfold effective_options.
    unfold base_options, options, s0.
    destruct (0 <? size (settings s))%nat eqn:E; simpl; rewrite ?E; reflexivity. }
  rewrite Hopt.
  destruct (negb (size (effective_options s newOptions) =? size (options s0))%nat).
  - eexists _, _, []. unfold raise. split; [reflexivity|].
    rewrite world_with_options, trace_with_options. simpl. auto.
  - rewrite (bind_ok _ _ _ _ _ (opt_ok "enabled" ve _ ltac:(rewrite Hopt; exact Hen))).
    rewrite Ten.
    unfold bind at 1.
    rewrite (bind_ok _ _ _ _ _ (opt_ok "testMode" vt _ ltac:(rewrite Hopt; exact Htm))).
    rewrite Ttm. simpl. unfold ret, bind, log, emit, raise.
    eexists _, _, [_]. split; [reflexivity|].
    simpl. rewrite world_with_options, trace_with_options. simpl.
    repeat split; auto.
Qed.

End Conflict.

(** ** Order construction (C6) *)

Section OrderType.

Context {W : Type} `{Environment W}.


End OrderType.



(** ** The sizing decision (C7, C1, C3, C4) *)

Section Sizing.

Context {W : Type} `{Environment W}.

Lemma Qltb_lt (x y : Q) : Qltb x y = true <-> x < y.
Proof.
  unfold Qltb. rewrite negb_true_iff, <- not_true_iff_false, Qle_bool_iff.
  split; [apply Qnot_le_lt | apply Qlt_not_le].
Qed.

Lemma Qltb_ge (x y : Q) : Qltb x y = false <-> y <= x.
Proof. unfold Qltb. rewrite negb_false_iff. apply Qle_bool_iff. Qed.

Lemma Qeqb_eq (x y : Q) : Qeqb x y = true <-> x == y.
Proof. apply Qeq_bool_iff. Qed.

Lemma Qeqb_neq (x y : Q) : Qeqb x y = false <-> ~ x == y.
Proof. unfold Qeqb. rewrite <- not_true_iff_false, Qeq_bool_iff. reflexivity. Qed.



Lemma createOrder_amount_run
    (s : State W) (d : Data) (testMode : Value) (balance buyPerc : Q) :
  data (self s) = Some d ->
  options s !! "testMode" = Some testMode ->
  options s !! "balance" = Some (VNum balance) ->
  options s !! "buyPerc" = Some (VNum buyPerc) ->
  ~ price d == 0 ->
  createOrder_amount s
  = Ok (cash_sized testMode balance buyPerc (price d)) (after_amount testMode balance s).
Proof.
  intros Hd Htm Hbal Hbp Hprice.
  apply Qeqb_neq in Hprice.
  unfold createOrder_amount, after_amount, cash_sized, effective_balance, py_div.
  mrun. destruct (truthy testMode); mrun.
  - rewrite Hprice. reflexivity.
  - destruct (Qltb balance 0); mrun; rewrite Hprice; reflexivity.
Qed.

Lemma options_after_amount (testMode : Value) (balance : Q) (s : State W) (k : string) :
  k <> "balance" ->
  options (after_amount testMode balance s) !! k = options s !! k.
Proof.
  intros Hk. unfold after_amount.
  destruct (truthy testMode); [|destruct (Qltb balance 0)];
    autorewrite with state; rewrite ?lookup_insert_ne by congruence; reflexivity.
Qed.

Lemma data_after_amount (testMode : Value) (balance : Q) (s : State W) :
  data (self (after_amount testMode balance s)) = data (self s).
Proof.
  unfold after_amount.
  destruct (truthy testMode); [|destruct (Qltb balance 0)];
    autorewrite with state; reflexivity.
Qed.

Lemma world_after_amount (testMode : Value) (balance : Q) (s : State W) :
  world (after_amount testMode balance s) = world s.
Proof.
  unfold after_amount.
  destruct (truthy testMode); [|destruct (Qltb balance 0)];
    autorewrite with state; reflexivity.
Qed.


Lemma createOrder_posQty_run (s : State W) (positions : Value) :
  options s !! "positions" = Some positions ->
  positions = VNone \/ (exists p, positions = VPosition p) ->
  createOrder_posQty s = Ok (held positions) s.
Proof.
  intros Hp Hwf. unfold createOrder_posQty. mrun.
  destruct Hwf as [-> | [p ->]]; reflexivity.
Qed.

End Sizing.

#[global] Hint Rewrite @data_after_amount @world_after_amount : state.

Ltac lookup_options ::=
  autorewrite with state;
  repeat first [ rewrite lookup_insert_eq
               | rewrite lookup_insert_ne by discriminate
               | rewrite options_after_amount by discriminate ];
  first [ reflexivity | eassumption ].


Ltac Q_props :=
  repeat match goal with
         | H : Qltb _ _ = true |- _ => apply Qltb_lt in H
         | H : Qltb _ _ = false |- _ => apply Qltb_ge in H
         | H : Qeqb _ _ = true |- _ => apply Qeqb_eq in H
         | H : Qeqb _ _ = false |- _ => apply Qeqb_neq in H
         end.

(** The three comparisons of a quantity with zero, consistent cases only. *)
Ltac sign_cases q :=
  destruct (Qltb q 0) eqn:?; destruct (Qltb 0 q) eqn:?; destruct (Qeqb q 0) eqn:?;
  try (exfalso; Q_props; lra).


Section Table.

Context {W : Type} `{Environment W}.




(** C3, as amended.  The quantity the sizing code hands on to order
    construction (a [Proceed] that passes the checks of lines 356-366) is
    positive; it is a whole number or it is the absolute quantity of the
    position held, fractional when that is. *)
Theorem passed_on_quantity
    (s : State W) (d : Data) (testMode short positions : Value) (balance buyPerc : Q) :
  data (self s) = Some d ->
  options s !! "testMode" = Some testMode ->
  options s !! "balance" = Some (VNum balance) ->
  options s !! "buyPerc" = Some (VNum buyPerc) ->
  options s !! "short" = Some short ->
  options s !! "positions" = Some positions ->
  positions = VNone \/ (exists p, positions = VPosition p) ->
  ~ price d == 0 ->
  exists f s',
    createOrder_decision s = Ok f s'
    /\ forall sd amount,
         f = Proceed sd amount ->
         Qeqb amount 0 = false ->
         Qltb amount 0 = false ->
         0 < amount /\ (is_whole amount \/ amount == Qabs (held positions)).
Proof.
  intros Hd Htm Hbal Hbp Hshort Hpos Hwf Hprice.
  unfold createOrder_decision.
  erewrite bind_ok by (eapply createOrder_amount_run; eassumption).
  erewrite bind_ok.
  2:{ apply createOrder_posQty_run with (positions := positions);
        [lookup_options | exact Hwf]. }
  unfold createOrder_sizing. mrun.
  assert (Hwhole : forall x, is_whole (inject_Z x)) by (intros x; exists x; reflexivity).
  assert (Hzero : is_whole 0) by (exists 0%Z; reflexivity).
  assert (Hfinish : forall (f : Flow) (s1 : State W),
             (forall sd amount, f = Proceed sd amount ->
                is_whole amount \/ amount == Qabs (held positions)) ->
             exists f0 s',
               Ok f s1 = Ok f0 s'
               /\ forall sd amount, f0 = Proceed sd amount ->
                    Qeqb amount 0 = false -> Qltb amount 0 = false ->
                    0 < amount
                    /\ (is_whole amount \/ amount == Qabs (held positions))).
  { intros f s1 Hf. exists f, s1. split; [reflexivity|].
    intros sd amount -> Hnz Hnn. split; [Q_props; lra | eauto]. }
  set (q := held positions) in *.
  destruct (text_is (action d) "Open" && text_is (position d) "Short").
  { sign_cases q; mrun; try destruct (truthy short); simpl; mrun; apply Hfinish;
      intros sd amount E; inversion E; subst; unfold cash_sized; auto;
      right; Q_props; rewrite Qabs_pos by lra; reflexivity. }
  destruct (text_is (action d) "Close" && text_is (position d) "Short").
  { sign_cases q; mrun; apply Hfinish;
      intros sd amount E; inversion E; subst; unfold cash_sized; auto;
      right; reflexivity. }
  destruct ((text_is (action d) "Bull" || text_is (action d) "buy"
             || text_is (action d) "Open")
            && (text_is (position d) "Long" || is_None (position d))).
  { mrun. apply Hfinish. intros sd amount E; inversion E; subst.
    destruct (negb (is_VNone positions)); unfold cash_sized; auto. }
  destruct ((text_is (action d) "Bear" || text_is (action d) "sell"
             || text_is (action d) "Close")
            && (text_is (position d) "Long" || is_None (position d))).
  { mrun. apply Hfinish. intros sd amount E; inversion E; subst.
    destruct (negb (is_VNone positions)); simpl; auto.
    destruct (Qltb 0 q) eqn:Hq; auto.
    right. Q_props. rewrite Qabs_pos by lra. lra. }
  mrun. apply Hfinish. intros sd amount E; inversion E; subst.
  unfold cash_sized; auto.
Qed.

End Table.




(** The quantity theorem read at a sell alert with half a share held. *)
Lemma passed_on_quantity_witness :
  let s := parsed_request "order sell | MSFT@337.57 | x"
                          (fetched (VPosition half_share) true 0) Sim.calm in
  data (self s) = Some {| action := Some "sell"; position := None;
                          stock := Some "MSFT"; price := 33757 # 100 |}
  /\ exists f s',
      createOrder_decision s = Ok f s'
      /\ forall sd amount,
           f = Proceed sd amount ->
           Qeqb amount 0 = false ->
           Qltb amount 0 = false ->
           0 < amount /\ (is_whole amount \/ amount == Qabs (held (VPosition half_share))).
Proof.
  split; [vm_compute; reflexivity|].
  apply (passed_on_quantity
           (parsed_request "order sell | MSFT@337.57 | x"
                           (fetched (VPosition half_share) true 0) Sim.calm)
           {| action := Some "sell"; position := None;
              stock := Some "MSFT"; price := 33757 # 100 |}
           (VBool true) (VBool false) (VPosition half_share) 0 (2 # 10)).
  - vm_compute; reflexivity.
  - vm_compute; reflexivity.
  - vm_compute; reflexivity.
  - vm_compute; reflexivity.
  - vm_compute; reflexivity.
  - vm_compute; reflexivity.
  - right. exists half_share. reflexivity.
  - discriminate.
Defined.

Lemma half_is_not_whole : ~ is_whole (1 # 2).
Proof. intros [z Hz]. unfold Qeq in Hz. simpl in Hz. lia. Qed.

(** C3 as stated fails.  With half a share held, a sell alert is
    answered by a submitted order for half a share. *)
Lemma fractional_position_gives_fractional_order :
  exists s' limit_price,
    AutomatedTrader_init 5 true "order sell | MSFT@337.57 | x" ∅
                         (Sim.boot (holding half_share) Sim.demo_settings)
    = Ok tt s'
    /\ In (EvSubmitOrder (LimitOrderRequest (Some "MSFT") limit_price (1 # 2) SELL GTC))
          (trace s')
    /\ ~ is_whole (1 # 2).
Proof.
  eexists _, _. split; [vm_compute; reflexivity|].
  split; [|exact half_is_not_whole].
  simpl. right. left. reflexivity.
Qed.

(** C4 at its failing input.  The alert is parsed as action ["Bear"] with
    position ["Short"]; no branch matches; the unhandled order is logged,
    and the call of [orderType] then reads the unbound local [side]:
    the constructor raises, having submitted nothing. *)
Theorem unhandled_signal_raises :
  exists s',
    AutomatedTrader_init 5 true "LDC Kernel Bear Short | CLSK@4.015 | (1)" ∅
                         (Sim.boot Sim.calm Sim.demo_settings)
    = Raise (UnboundLocalError "side") s'
    /\ trace s'
       = [ EvLog ERROR (UnhandledOrder (clsk "Bear" (Some "Short")));
           EvGetAccount;
           EvGetOpenPosition (Some "CLSK");
           EvGetOrders (Some [Some "CLSK"]);
           EvGetOrders None ].
Proof. eexists. split; vm_compute; reflexivity. Qed.

(** ** State shared between requests (C8) *)

(** C8 at its failing input.  [self.options] is the module's [settings]
    dictionary itself, and [orderType] stores the fractional offset in
    its entry [limitamt].  A first request for MSFT at 337.57 leaves
    0.168785 there; a second request, for CLSK at 4.01 (below the
    threshold), then offsets its limit price by that amount (4.18)
    instead of the configured 0.04 (4.05), which is what it does when the
    first request is not processed. *)
Theorem second_request_sees_limitamt_of_first :
  let boot := Sim.boot Sim.calm Sim.demo_settings in
  exists after_first after_both alone,
    respond 5 true "b'order buy | MSFT@337.57 | x'" boot = Ok 200%Z after_first
    /\ respond 5 true "b'order buy | CLSK@4.01 | x'" after_first = Ok 200%Z after_both
    /\ respond 5 true "b'order buy | CLSK@4.01 | x'" boot = Ok 200%Z alone
    /\ settings boot !! "limitamt" = Some (VNum (4 # 100))
    /\ settings after_first !! "limitamt" = Some (VNum (168785 # 1000000))
    /\ head (submitted (trace after_both))
       = Some (LimitOrderRequest (Some "CLSK") (209 # 50) 4987 BUY GTC)
    /\ head (submitted (trace alone))
       = Some (LimitOrderRequest (Some "CLSK") (81 # 20) 4987 BUY GTC).
Proof.
  eexists _, _, _.
  split; [vm_compute; reflexivity|].
  split; [vm_compute; reflexivity|].
  split; [vm_compute; reflexivity|].
  repeat split; vm_compute; reflexivity.
Qed.

(** ** Dry run (C9) *)

Section DryRun.

Context {W : Type} `{Environment W}.



End DryRun.




Section DryRunMethods.

Context {W : Type} `{Environment W}.







End DryRunMethods.

Section DryRunConstructor.

Context {W : Type} `{Environment W}.


End DryRunConstructor.



(** ** Supervision (C2, C5) *)

Section Frames.

Context {W : Type} `{Environment W}.




End Frames.





Section Supervision.

Context {W : Type} `{Environment W}.




















End Supervision.

Section Unescalated.

Context {W : Type} `{Environment W}.

Lemma calm_since_now (s : State W) : calm_since (trace s) s.
Proof. exists []. split; [reflexivity | constructor]. Qed.


Lemma unescalated_inv {A} (m : M W A) (s : State W) :
  unescalated m ->
  match m s with
  | Ok _ s' | Raise _ s' => calm_since (trace s) s'
  | Diverge => True
  end.
Proof. intros Hm. apply Hm, calm_since_now. Qed.

End Unescalated.




Section FailSafe.

Context {W : Type} `{Environment W}.




Variables maxTime totalMaxTime : Q.

(** One poll, the second of sleep and the status query, does not carry
    the clock from before the fail-safe limit to beyond the per-order
    timeout. *)
Hypothesis poll_is_short :
  forall (w : W) (id : string),
    time_time (snd (get_order_by_client_id id (time_sleep 1 w)))
    <= time_time w + (maxTime - totalMaxTime).



(** The per-order timeout branch comes first, whatever [totalMaxTime]
    is. *)
Lemma verifyOrder_while_escalates
    (self_call : Order -> bool -> M W Value) (n : nat) (b1 b2 : bool)
    (start : Q) (id : string) (o : Order) (s : State W) :
  is_open o = true ->
  Qltb maxTime (time_time (world s) - start) = true ->
  verifyOrder_while self_call (S n) (VNum maxTime) (VNum totalMaxTime) b1 b2
                    start id o false s
  = (verifyOrder_escalate self_call o id b1 b2 (VNum maxTime);;
     sleep 1;;
     o' <- poll id;;
     verifyOrder_while self_call n (VNum maxTime) (VNum totalMaxTime) b1 b2
                       start id o' true) s.
Proof.
  intros Hopen Hlate. simpl. rewrite Hopen. unfold exceeds. mrun.
  rewrite Hlate. reflexivity.
Qed.


End FailSafe.

(** ** Termination of the supervision

    [verifyOrder] polls until it sees a terminal status or the clock has
    run past [totalMaxTime].  When [time.sleep] does sleep, and no call of
    the broker turns the clock back, it returns or raises for every order
    and every broker, given fuel for the seconds to wait. *)

Section Termination.

Context {W : Type} `{Environment W}.

Lemma steady_later (opts : gmap string Value) (t0 : Q) (s : State W)
    (w' : W) (t : list Event) :
  steady opts t0 s ->
  time_time (world s) <= time_time w' ->
  steady opts t0 (with_world w' (with_trace t s)).
Proof. intros [Ho Ht] Hw. split; [exact Ho | simpl; lra]. Qed.

End Termination.

(** What keeps the state steady: a change other than of its options and
    its clock, and a broker call that does not turn the clock back. *)
Ltac steady_side :=
  first [ intros; exact I
        | intros; assumption
        | intros; apply steady_later; [assumption | solve [auto]] ].

Ltac ends_steps_with known := intros ?; preserved_with known steady_side.

Ltac ends_steps := ends_steps_with ltac:(fail).

Section SupervisionEnds.

Context {W : Type} `{Environment W}.

Hypothesis sleep_advances :
  forall (d : Q) (w : W), time_time w + d <= time_time (time_sleep d w).
Hypothesis poll_keeps_time :
  forall (id : string) (w : W),
    time_time w <= time_time (snd (get_order_by_client_id id w)).
Hypothesis cancel_keeps_time :
  forall (id : string) (w : W),
    time_time w <= time_time (snd (cancel_order_by_id id w)).
Hypothesis submit_keeps_time :
  forall (r : OrderRequest) (w : W),
    time_time w <= time_time (snd (submit_order r w)).

Variable opts : gmap string Value.
Variables maxTime totalMaxTime : Q.

Lemma seconds_S (n : nat) : seconds (S n) == seconds n + 1.
Proof.
  unfold seconds. rewrite Nat2Z.inj_succ, <- Z.add_1_r, inject_Z_plus. reflexivity.
Qed.

Lemma seconds_nonneg (n : nat) : 0 <= seconds n.
Proof. unfold seconds, Qle. simpl. lia. Qed.

Lemma ends_cancelOrderById (id : option string) :
  ends opts (cancelOrderById (W := W) id).
Proof. unfold cancelOrderById. ends_steps. Qed.

Lemma ends_verifyOrder_result (o : Order) : ends opts (verifyOrder_result (W := W) o).
Proof. unfold verifyOrder_result. ends_steps. Qed.

Lemma ends_timeout_policy (policy : string) (b1 b2 : bool) :
  ends opts (timeout_policy (W := W) policy b1 b2).
Proof. unfold timeout_policy. ends_steps. Qed.

Lemma ends_market_orderType (amount : Q) (sd : OrderSide) :
  ends opts (orderType (W := W) amount sd false).
Proof. unfold orderType. simpl. ends_steps. Qed.

Lemma ends_verifyOrder_escalate
    (self_call : Order -> bool -> M W Value) (o : Order) (id : string)
    (b1 b2 : bool) (mt : Value) :
  (forall o', ends opts (self_call o' true)) ->
  ends opts (verifyOrder_escalate self_call o id b1 b2 mt).
Proof.
  intros Hself. unfold verifyOrder_escalate.
  ends_steps_with
    ltac:(first [ apply Hself
                | apply ends_cancelOrderById
                | apply ends_timeout_policy
                | apply ends_market_orderType ]).
Qed.

Lemma ends_failsafe (o : Order) (limit : Value) :
  ends opts
    (cancelOrderById (W := W) (Some (id_hex o));;
     d <- the_data;;
     od <- the_order_data;;
     log WARNING (ExceededTotalMaxTime limit d (request_qty od));;
     ret (VBool true)).
Proof. ends_steps_with ltac:(apply ends_cancelOrderById). Qed.

(** One more poll: the state it leaves is a second later, at least. *)
Lemma poll_takes_a_second (id : string) (s s2 : State W) (o2 : Order) (t0 : Q) :
  steady opts t0 s ->
  poll id (with_world (time_sleep 1 (world s)) (with_trace (EvSleep 1 :: trace s) s))
  = Ok o2 s2 ->
  steady opts t0 s2 /\ time_time (world s) + 1 <= time_time (world s2).
Proof.
  intros [Ho Ht] E. unfold poll in E. simpl in E.
  pose proof (poll_keeps_time id (time_sleep 1 (world s))) as Hp.
  pose proof (sleep_advances 1 (world s)) as Hs.
  destruct (get_order_by_client_id id (time_sleep 1 (world s))) as [[e|a] w'];
    [discriminate E|].
  injection E as <- <-. simpl in *. unfold steady. simpl.
  repeat split; [exact Ho | lra | lra].
Qed.

(** The loop once the timeout flag is set: it ends within the seconds
    left to [totalMaxTime]. *)
Lemma verifyOrder_while_ends_flagged
    (self_call : Order -> bool -> M W Value) (b1 b2 : bool) (start : Q) (id : string) :
  forall (n : nat) (o : Order) (s : State W) (t0 : Q),
    steady opts t0 s ->
    totalMaxTime - (time_time (world s) - start) < seconds n ->
    match verifyOrder_while self_call (S n) (VNum maxTime) (VNum totalMaxTime) b1 b2
                            start id o true s with
    | Ok _ s' => steady opts t0 s'
    | Raise _ _ => True
    | Diverge => False
    end.
Proof.
  induction n as [|n IH]; intros o s t0 Hs Hleft;
    [|remember (S n) as m eqn:Hm in |- *].
  all: simpl verifyOrder_while; destruct (is_open o);
    [|apply ends_verifyOrder_result; exact Hs].
  all: unfold exceeds; mrun; rewrite andb_false_r; mrun.
  all: destruct (Qltb totalMaxTime (time_time (world s) - start)) eqn:Hover;
    [apply ends_failsafe; exact Hs|].
  - apply Qltb_ge in Hover. change (seconds 0) with 0 in Hleft. lra.
  - mrun. unfold bind at 1.
    destruct (poll id _) as [o2 s2|e s2|] eqn:Epoll; [| exact I |].
    + apply (poll_takes_a_second id s s2 o2 t0 Hs) in Epoll as [Hs2 Hlater].
      subst m. apply IH; [exact Hs2|].
      rewrite seconds_S in Hleft. lra.
    + unfold poll in Epoll. simpl in Epoll.
      destruct (get_order_by_client_id id (time_sleep 1 (world s))) as [[e|a] w'];
        discriminate Epoll.
Qed.

(** The loop from the start: it ends within the seconds left to the later
    of the two limits, and two more. *)
Lemma verifyOrder_while_ends
    (self_call : Order -> bool -> M W Value) (b1 b2 : bool) (start : Q) (id : string) :
  (forall o', ends opts (self_call o' true)) ->
  forall (n : nat) (o : Order) (s : State W) (t0 : Q),
    steady opts t0 s ->
    maxTime - (time_time (world s) - start) + 1 < seconds n ->
    totalMaxTime - (time_time (world s) - start) + 1 < seconds n ->
    (1 <= n)%nat ->
    match verifyOrder_while self_call (S n) (VNum maxTime) (VNum totalMaxTime) b1 b2
                            start id o false s with
    | Ok _ s' => steady opts t0 s'
    | Raise _ _ => True
    | Diverge => False
    end.
Proof.
  intros Hself. induction n as [|n IH]; intros o s t0 Hs Hmax Htotal Hn; [lia|].
  remember (S n) as m eqn:Hm in |- *.
  simpl verifyOrder_while. destruct (is_open o);
    [|apply ends_verifyOrder_result; exact Hs].
  unfold exceeds. mrun. rewrite andb_true_r.
  rewrite seconds_S in Hmax, Htotal.
  destruct (Qltb maxTime (time_time (world s) - start)) eqn:Hlate.
  - (* the per-order timeout branch, then the flagged loop *)
    unfold bind at 1.
    pose proof (ends_verifyOrder_escalate self_call o id b1 b2 (VNum maxTime) Hself
                  (time_time (world s)) s) as Hesc.
    destruct (verifyOrder_escalate self_call o id b1 b2 (VNum maxTime) s)
      as [[] s1|e s1|] eqn:Eesc.
    + assert (Hs1 : steady opts (time_time (world s)) s1).
      { apply Hesc. destruct Hs as [Ho _]. split; [exact Ho | lra]. }
      rewrite bind_sleep. unfold bind at 1.
      destruct (poll id _) as [o2 s2|e s2|] eqn:Epoll; [| exact I |].
      * apply (poll_takes_a_second id s1 s2 o2 (time_time (world s)) Hs1) in Epoll
          as [Hs2 Hlater].
        destruct Hs1 as [_ Ht1]. destruct Hs as [Ho Ht0].
        pose proof (verifyOrder_while_ends_flagged self_call b1 b2
                      start id n o2 s2 t0) as Hflag.
        subst m. apply Hflag.
        -- destruct Hs2 as [Ho2 Ht2]. split; [exact Ho2 | lra].
        -- lra.
      * unfold poll in Epoll. simpl in Epoll.
        destruct (get_order_by_client_id id (time_sleep 1 (world s1))) as [[e|a] w'];
          discriminate Epoll.
    + exact I.
    + apply Hesc. destruct Hs as [Ho _]. split; [exact Ho | lra].
  - mrun.
    destruct (Qltb totalMaxTime (time_time (world s) - start)) eqn:Hover;
      [apply ends_failsafe; exact Hs|].
    apply Qltb_ge in Hlate, Hover.
    mrun. unfold bind at 1.
    destruct (poll id _) as [o2 s2|e s2|] eqn:Epoll; [| exact I |].
    + apply (poll_takes_a_second id s s2 o2 t0 Hs) in Epoll as [Hs2 Hlater].
      subst m. apply IH; [exact Hs2 | lra | lra |].
      destruct n as [|n]; [|lia].
      change (seconds 0) with 0 in Hmax. lra.
    + unfold poll in Epoll. simpl in Epoll.
      destruct (get_order_by_client_id id (time_sleep 1 (world s))) as [[e|a] w'];
        discriminate Epoll.
Qed.

Hypothesis maxTime_set : opts !! "maxTime" = Some (VNum maxTime).
Hypothesis totalMaxTime_set : opts !! "totalMaxTime" = Some (VNum totalMaxTime).

Lemma verifyOrder_ends_flagged (fuel : nat) (o : Order) :
  totalMaxTime + 2 < seconds fuel ->
  (2 <= fuel)%nat ->
  ends opts (verifyOrder fuel o true).
Proof.
  intros Hfuel Hn t0 s Hs.
  destruct fuel as [|[|n]]; [lia | lia |].
  simpl verifyOrder. pose proof Hs as [Ho _].
  rewrite (bind_opt "maxTime" (VNum maxTime)) by (rewrite Ho; exact maxTime_set).
  rewrite (bind_opt "totalMaxTime" (VNum totalMaxTime))
    by (rewrite Ho; exact totalMaxTime_set).
  rewrite bind_now.
  apply verifyOrder_while_ends_flagged; [exact Hs|].
  rewrite !seconds_S in Hfuel. lra.
Qed.

(** With fuel for the seconds up to both limits and four more,
    [verifyOrder] returns or raises. *)
Theorem verifyOrder_ends (fuel : nat) (o : Order) (timeout : bool) (s : State W) :
  options s = opts ->
  maxTime + 4 < seconds fuel ->
  totalMaxTime + 4 < seconds fuel ->
  (4 <= fuel)%nat ->
  verifyOrder fuel o timeout s <> Diverge.
Proof.
  intros Ho Hmax Htotal Hn.
  assert (Hs : steady opts (time_time (world s)) s) by (split; [exact Ho | lra]).
  assert (Hend : match verifyOrder fuel o timeout s with
                 | Ok _ s' => steady opts (time_time (world s)) s'
                 | Raise _ _ => True
                 | Diverge => False
                 end).
  { destruct timeout.
    - apply verifyOrder_ends_flagged; [lra | lia | exact Hs].
    - destruct fuel as [|fuel]; [lia|].
      simpl verifyOrder.
      rewrite (bind_opt "maxTime" (VNum maxTime)) by (rewrite Ho; exact maxTime_set).
      rewrite (bind_opt "totalMaxTime" (VNum totalMaxTime))
        by (rewrite Ho; exact totalMaxTime_set).
      rewrite bind_now.
      destruct fuel as [|n]; [lia|].
      rewrite !seconds_S in Hmax, Htotal.
      apply verifyOrder_while_ends; [| exact Hs | lra | lra | lia].
      intros o'. apply verifyOrder_ends_flagged; [rewrite seconds_S; lra | lia]. }
  intros E. rewrite E in Hend. exact Hend.
Qed.

End SupervisionEnds.

(** ** The properties at concrete runs *)

(** The conflict theorem read at the simulated process started with
    real-money credentials and the default [enabled] and [testMode]. *)
Lemma init_conflict_raises_before_any_broker_call_witness :
  option_true (effective_options (Sim.boot Sim.calm Sim.demo_settings) ∅) "enabled"
  /\ option_true (effective_options (Sim.boot Sim.calm Sim.demo_settings) ∅) "testMode"
  /\ exists e s' added,
      AutomatedTrader_init 5 false "b'order buy | MSFT@337.57 | x'" ∅
                           (Sim.boot Sim.calm Sim.demo_settings) = Raise e s'
      /\ world s' = world (Sim.boot Sim.calm Sim.demo_settings)
      /\ trace s' = (added ++ trace (Sim.boot Sim.calm Sim.demo_settings))%list
      /\ Forall (fun ev => broker_call ev = false) added.
Proof.
  assert (Hen : option_true (effective_options (Sim.boot Sim.calm Sim.demo_settings) ∅)
                            "enabled")
    by (exists (VBool true); split; vm_compute; reflexivity).
  assert (Htm : option_true (effective_options (Sim.boot Sim.calm Sim.demo_settings) ∅)
                            "testMode")
    by (exists (VBool true); split; vm_compute; reflexivity).
  split; [exact Hen|]. split; [exact Htm|].
  exact (init_conflict_raises_before_any_broker_call
           5 "b'order buy | MSFT@337.57 | x'" ∅
           (Sim.boot Sim.calm Sim.demo_settings) Hen Htm).
Defined.



(** The termination theorem read at the same broker: the order never
    fills, and with fuel for twenty polls the supervision is over. *)
Lemma verifyOrder_ends_witness :
  (forall (d : Q) (w : Steady.World), time_time w + d <= time_time (time_sleep d w))
  /\ verifyOrder 20 Steady.the_order false (Steady.supervising (tight_settings 5))
     <> Diverge.
Proof.
  split; [intros d w; simpl; lra|].
  apply (verifyOrder_ends (W := Steady.World)) with
    (opts := options (Steady.supervising (tight_settings 5)))
    (maxTime := 10) (totalMaxTime := 5);
    first [ lia | reflexivity | vm_compute; reflexivity | intros; simpl; lra ].
Defined.


(** * More of the program *)

(** ** The request pattern ([setData])

    The matcher of [Regex] is sound for [matches]; what the two patterns
    of [setData] match is read off [matches]. *)

Lemma append_cons (x : ascii) (a b : string) : String x a ++ b = String x (a ++ b).
Proof. reflexivity. Qed.

Lemma append_assoc (a b c : string) : (a ++ b) ++ c = a ++ (b ++ c).
Proof.
  induction a as [|x a IH]; [reflexivity|].
  rewrite !append_cons, IH. reflexivity.
Qed.

Lemma append_nil_r (a : string) : a ++ EmptyString = a.
Proof.
  induction a as [|x a IH]; [reflexivity|]. rewrite append_cons, IH. reflexivity.
Qed.

Lemma length_append (a b : string) :
  String.length (a ++ b) = (String.length a + String.length b)%nat.
Proof.
  induction a as [|x a IH]; [reflexivity|].
  rewrite append_cons. simpl. rewrite IH. reflexivity.
Qed.

Lemma substring_append (a b : string) : substring 0 (String.length a) (a ++ b) = a.
Proof.
  induction a as [|x a IH]; [destruct b; reflexivity|].
  rewrite append_cons. simpl. rewrite IH. reflexivity.
Qed.

Lemma consumed_append (t s1 : string) : consumed (t ++ s1) s1 = t.
Proof.
  unfold consumed. rewrite length_append.
  replace (String.length t + String.length s1 - String.length s1)%nat
    with (String.length t) by lia.
  apply substring_append.
Qed.

(** The matcher is sound: a result comes from a text [r] matches and
    from the continuation run on what follows that text. *)
Lemma rmatch_sound (r : regex) :
  forall (s : string) (caps : captures) (k : cont) (c : captures),
    rmatch r s caps k = Some c ->
    exists t s1 c1, s = t ++ s1 /\ matches r t caps c1 /\ k s1 c1 = Some c.
Proof.
  induction r as [| ch | | cs | r1 IH1 r2 IH2 | r1 IH1 r2 IH2 | i r IH | greedy r IH];
    intros s caps k c E; simpl in E.
  - exists EmptyString, s, caps. repeat split; [constructor | exact E].
  - destruct s as [|a s']; [discriminate E|].
    destruct (same_char a ch) eqn:Ha; [|discriminate E].
    exists (String a EmptyString), s', caps. repeat split; [constructor; exact Ha | exact E].
  - destruct s as [|a s']; [discriminate E|].
    destruct (Ascii.eqb a newline) eqn:Ha; [discriminate E|].
    exists (String a EmptyString), s', caps. repeat split; [constructor; exact Ha | exact E].
  - destruct s as [|a s']; [discriminate E|].
    destruct (existsb (same_char a) cs) eqn:Ha; [|discriminate E].
    exists (String a EmptyString), s', caps. repeat split; [constructor; exact Ha | exact E].
  - apply IH1 in E as (t1 & s1 & c1 & -> & M1 & E).
    apply IH2 in E as (t2 & s2 & c2 & -> & M2 & E).
    exists (t1 ++ t2), s2, c2. rewrite append_assoc.
    repeat split; [econstructor; eassumption | exact E].
  - destruct (rmatch r1 s caps k) as [c'|] eqn:E1.
    + injection E as ->. apply IH1 in E1 as (t & s1 & c1 & -> & M & E).
      exists t, s1, c1. repeat split; [apply matches_Alt_l, M | exact E].
    + apply IH2 in E as (t & s1 & c1 & -> & M & E).
      exists t, s1, c1. repeat split; [apply matches_Alt_r, M | exact E].
  - apply IH in E as (t & s1 & c1 & -> & M & E).
    rewrite consumed_append in E.
    exists t, s1, (<[i := Some t]> c1). repeat split; [constructor; exact M | exact E].
  - assert (Hmore : forall (loop : string -> captures -> option captures)
                           (s : string) (caps c : captures),
               (forall s caps c,
                   loop s caps = Some c ->
                   exists t s1 c1,
                     s = t ++ s1 /\ matches (Star greedy r) t caps c1 /\ k s1 c1 = Some c) ->
               rmatch r s caps
                 (fun s1 c1 =>
                    if (String.length s1 <? String.length s)%nat
                    then loop s1 c1 else None) = Some c ->
               exists t s1 c1,
                 s = t ++ s1 /\ matches (Star greedy r) t caps c1 /\ k s1 c1 = Some c).
    { intros loop s0 caps0 c0 Hloop E'.
      apply IH in E' as (t1 & s1 & c1 & -> & M1 & E').
      destruct (String.length s1 <? String.length (t1 ++ s1))%nat; [|discriminate E'].
      apply Hloop in E' as (t2 & s2 & c2 & -> & M2 & E').
      exists (t1 ++ t2), s2, c2. rewrite append_assoc.
      repeat split; [econstructor; eassumption | exact E']. }
    revert E. generalize (String.length s) at 1. intros n. revert s caps c.
    destruct greedy.
    + induction n as [|n IHn]; intros s caps c E.
      * exists EmptyString, s, caps. repeat split; [constructor | exact E].
      * match type of E with
        | match ?run with _ => _ end = _ => destruct run as [c'|] eqn:E1
        end.
        -- injection E as ->. eapply Hmore; [|exact E1]. exact IHn.
        -- exists EmptyString, s, caps. repeat split; [constructor | exact E].
    + induction n as [|n IHn]; intros s caps c E.
      * exists EmptyString, s, caps. repeat split; [constructor | exact E].
      * destruct (k s caps) as [c'|] eqn:E1.
        -- injection E as ->.
           exists EmptyString, s, caps. repeat split; [constructor | exact E1].
        -- eapply Hmore; [|exact E]. exact IHn.
Qed.

Lemma all_chars_cons (p : ascii -> bool) (a : ascii) (t : string) :
  all_chars p (String a t) = p a && all_chars p t.
Proof. reflexivity. Qed.

Lemma all_chars_append (p : ascii -> bool) (t1 t2 : string) :
  all_chars p (t1 ++ t2) = all_chars p t1 && all_chars p t2.
Proof.
  induction t1 as [|a t1 IH]; [reflexivity|].
  rewrite append_cons, !all_chars_cons, IH, andb_assoc. reflexivity.
Qed.

Lemma all_chars_weaken (p q : ascii -> bool) (t : string) :
  (forall a, p a = true -> q a = true) ->
  all_chars p t = true -> all_chars q t = true.
Proof.
  intros Hpq. induction t as [|a t IH]; [reflexivity|].
  rewrite !all_chars_cons, !andb_true_iff. intros [Ha Ht]. auto.
Qed.

Lemma lower_text_cons (a : ascii) (t : string) :
  lower_text (String a t) = String (lower a) (lower_text t).
Proof. reflexivity. Qed.

Lemma lower_text_append (t1 t2 : string) :
  lower_text (t1 ++ t2) = lower_text t1 ++ lower_text t2.
Proof.
  induction t1 as [|a t1 IH]; [reflexivity|].
  rewrite append_cons, !lower_text_cons, append_cons, IH. reflexivity.
Qed.

Lemma matches_length (r : regex) (t : string) (c0 c1 : captures) :
  matches r t c0 c1 -> length c1 = length c0.
Proof.
  induction 1; try reflexivity; try congruence.
  etransitivity; [apply length_insert | assumption].
Qed.

Lemma matches_Seq_inv (r1 r2 : regex) (t : string) (c0 c2 : captures) :
  matches (Seq r1 r2) t c0 c2 ->
  exists t1 t2 c1, t = t1 ++ t2 /\ matches r1 t1 c0 c1 /\ matches r2 t2 c1 c2.
Proof. inversion 1; subst. eauto 7. Qed.

Lemma matches_Alt_inv (r1 r2 : regex) (t : string) (c0 c1 : captures) :
  matches (Alt r1 r2) t c0 c1 -> matches r1 t c0 c1 \/ matches r2 t c0 c1.
Proof. inversion 1; subst; auto. Qed.

Lemma matches_Group_inv (i : nat) (r : regex) (t : string) (c0 c2 : captures) :
  matches (Group i r) t c0 c2 ->
  exists c1, matches r t c0 c1 /\ c2 = <[i := Some t]> c1.
Proof. inversion 1; subst. eauto. Qed.

Lemma matches_Empty_inv (t : string) (c0 c1 : captures) :
  matches Empty t c0 c1 -> t = EmptyString /\ c1 = c0.
Proof. inversion 1; subst. auto. Qed.

Lemma matches_Lit_inv (c : ascii) (t : string) (c0 c1 : captures) :
  matches (Lit c) t c0 c1 ->
  exists a, t = String a EmptyString /\ same_char a c = true /\ c1 = c0.
Proof. inversion 1; subst. eauto. Qed.

Lemma matches_char (r : regex) (p : ascii -> bool) (t : string) (c0 c1 : captures) :
  char_test r = Some p ->
  matches r t c0 c1 ->
  c1 = c0 /\ exists a, t = String a EmptyString /\ p a = true.
Proof.
  intros Hp M. destruct M; try discriminate Hp; injection Hp as <-;
    (split; [reflexivity | eexists; split; [reflexivity|]]); try assumption.
  unfold no_newline. rewrite H. reflexivity.
Qed.

Lemma matches_Star_chars (greedy : bool) (r : regex) (p : ascii -> bool)
    (t : string) (c0 c1 : captures) :
  char_test r = Some p ->
  matches (Star greedy r) t c0 c1 ->
  c1 = c0 /\ all_chars p t = true.
Proof.
  intros Hp M. remember (Star greedy r) as sr eqn:Hsr.
  induction M; try discriminate Hsr.
  - split; reflexivity.
  - injection Hsr as -> ->.
    apply (matches_char _ _ _ _ _ Hp) in M1 as (-> & a & -> & Ha).
    destruct (IHM2 eq_refl) as [-> Ht]. split; [reflexivity|].
    change (String a EmptyString ++ t2) with (String a t2).
    rewrite all_chars_cons, Ha. exact Ht.
Qed.

Lemma matches_Plus_chars (greedy : bool) (r : regex) (p : ascii -> bool)
    (t : string) (c0 c1 : captures) :
  char_test r = Some p ->
  matches (Plus greedy r) t c0 c1 ->
  c1 = c0 /\ t <> EmptyString /\ all_chars p t = true.
Proof.
  intros Hp M. unfold Plus in M. inversion M; subst.
  match goal with
  | H1 : matches r _ _ _, H2 : matches (Star _ r) _ _ _ |- _ =>
      apply (matches_char _ _ _ _ _ Hp) in H1 as (-> & a & -> & Ha);
      apply (matches_Star_chars _ _ _ _ _ _ Hp) in H2 as (-> & Ht)
  end.
  split; [reflexivity|]. split; [discriminate|].
  match goal with
  | |- all_chars p (String a EmptyString ++ ?t2) = true =>
      change (String a EmptyString ++ t2) with (String a t2)
  end.
  rewrite all_chars_cons, Ha. exact Ht.
Qed.

Lemma matches_Str (pat t : string) (c0 c1 : captures) :
  matches (Str pat) t c0 c1 -> c1 = c0 /\ lower_text t = lower_text pat.
Proof.
  revert t c0 c1. induction pat as [|c pat IH]; intros t c0 c1 M.
  - apply matches_Empty_inv in M as [-> ->]. split; reflexivity.
  - destruct pat as [|c' pat'].
    + apply matches_Lit_inv in M as (a & -> & Ha & ->). split; [reflexivity|].
      rewrite !lower_text_cons. f_equal. apply Ascii.eqb_eq, Ha.
    + change (Str (String c (String c' pat'))) with (Seq (Lit c) (Str (String c' pat'))) in M.
      apply matches_Seq_inv in M as (t1 & t2 & c2 & -> & M1 & M2).
      apply matches_Lit_inv in M1 as (a & -> & Ha & ->).
      apply IH in M2 as [-> Ht]. split; [reflexivity|].
      change (String a EmptyString ++ t2) with (String a t2).
      rewrite !lower_text_cons, Ht. f_equal. apply Ascii.eqb_eq, Ha.
Qed.

(** A character that has no other case is matched by itself only. *)
Lemma same_char_caseless (a c : ascii) :
  lower c = c ->
  (forall b, lower b = c -> b = c) ->
  same_char a c = true -> a = c.
Proof.
  intros Hc Honly E. apply Ascii.eqb_eq in E. rewrite Hc in E. apply Honly, E.
Qed.

Lemma lower_only (c : ascii) :
  negb ((97 <=? N_of_ascii c) && (N_of_ascii c <=? 122))%N = true ->
  forall b, lower b = c -> b = c.
Proof.
  intros Hc b. unfold lower.
  destruct ((65 <=? N_of_ascii b) && (N_of_ascii b <=? 90))%N eqn:Hb; [|auto].
  intros <-. apply andb_true_iff in Hb as [H1 H2].
  apply N.leb_le in H1, H2.
  assert (Hn : (N_of_ascii b + 32 < 256)%N) by lia.
  rewrite N_ascii_embedding in Hc by exact Hn.
  apply negb_true_iff, andb_false_iff in Hc as [Hc|Hc]; apply N.leb_gt in Hc; lia.
Qed.

Lemma same_char_only (a c : ascii) :
  negb ((97 <=? N_of_ascii c) && (N_of_ascii c <=? 122))%N = true ->
  negb ((65 <=? N_of_ascii c) && (N_of_ascii c <=? 90))%N = true ->
  same_char a c = true -> a = c.
Proof.
  intros Hlow Hup. apply same_char_caseless; [|apply lower_only, Hlow].
  unfold lower. apply negb_true_iff in Hup. rewrite Hup. reflexivity.
Qed.

Lemma price_class (a : ascii) :
  existsb (same_char a) (list_ascii_of_string "0123456789.") = true ->
  price_char a = true.
Proof.
  unfold price_char. rewrite !existsb_exists.
  intros (c & Hin & Hc). exists c. split; [exact Hin|].
  apply Ascii.eqb_eq. apply same_char_only; [| |exact Hc];
    simpl in Hin; repeat (destruct Hin as [<-|Hin]; [reflexivity|]); contradiction.
Qed.

Lemma search_from_eq (r : regex) (n : nat) (s : string) :
  search_from r n s
  = match rmatch (Group 0 r) s (replicate (S n) None) (fun _ c => Some c) with
    | Some c => Some c
    | None =>
        match s with
        | String _ s' => search_from r n s'
        | EmptyString => None
        end
    end.
Proof. destruct s; reflexivity. Qed.

Lemma search_from_sound (r : regex) (n : nat) (s : string) (c : captures) :
  search_from r n s = Some c ->
  exists pre t post c1,
    s = pre ++ t ++ post
    /\ matches r t (replicate (S n) None) c1
    /\ c = <[0%nat := Some t]> c1.
Proof.
  assert (Hhere : forall s,
             rmatch (Group 0 r) s (replicate (S n) None) (fun _ c => Some c) = Some c ->
             exists t post c1,
               s = t ++ post /\ matches r t (replicate (S n) None) c1
               /\ c = <[0%nat := Some t]> c1).
  { intros s0 E. apply rmatch_sound in E as (t & post & c1 & -> & M & E).
    apply matches_Group_inv in M as (c2 & M & ->). injection E as <-.
    exists t, post, c2. auto. }
  induction s as [|a s IH]; intros E; rewrite search_from_eq in E;
    destruct (rmatch (Group 0 r) _ _ _) as [c'|] eqn:E1.
  - injection E as ->. apply Hhere in E1 as (t & post & c1 & Hs & M & Hc).
    exists EmptyString, t, post, c1. auto.
  - discriminate E.
  - injection E as ->. apply Hhere in E1 as (t & post & c1 & Hs & M & Hc).
    exists EmptyString, t, post, c1. auto.
  - apply IH in E as (pre & t & post & c1 & -> & M & Hc).
    exists (String a pre), t, post, c1. auto.
Qed.

Lemma matches_separator (r : regex) (p : ascii -> bool) (c : ascii)
    (t : string) (c0 c1 : captures) :
  char_test r = Some p ->
  (forall a, p a = true -> a = c) ->
  matches r t c0 c1 -> t = String c EmptyString /\ c1 = c0.
Proof.
  intros Hp Honly M. apply (matches_char _ _ _ _ _ Hp) in M as (-> & a & -> & Ha).
  apply Honly in Ha as ->. auto.
Qed.

Ltac only_char :=
  let Hx := fresh in
  intros ? Hx; simpl in Hx; rewrite ?orb_false_r in Hx; revert Hx;
  apply same_char_only; reflexivity.

Ltac separator M :=
  eapply matches_separator in M as [-> ->]; [|reflexivity|only_char].

Lemma all_brackets (c : ascii) (t : string) :
  negb ((97 <=? N_of_ascii c) && (N_of_ascii c <=? 122))%N = true ->
  negb ((65 <=? N_of_ascii c) && (N_of_ascii c <=? 90))%N = true ->
  all_chars (fun a => same_char a c) t = true ->
  all_chars (Ascii.eqb c) t = true.
Proof.
  intros H1 H2. apply all_chars_weaken. intros a Ha.
  apply Ascii.eqb_eq. symmetry. apply same_char_only; assumption.
Qed.

(** What follows the symbol in both patterns:
    [[@]\[*([0-9.]+)\]* [|]], with the price in group [i]. *)
Lemma price_part_sound (i : nat) (t : string) (c0 c1 : captures) :
  matches (Seqs [ Class ["@"%char]; Star true (Lit "[");
                  Group i (Plus true (Class (list_ascii_of_string "0123456789.")));
                  Star true (Lit "]"); Lit " "; Class ["|"%char] ]) t c0 c1 ->
  exists lb p rb,
    t = "@" ++ lb ++ p ++ rb ++ " |"
    /\ all_chars (Ascii.eqb "[") lb = true
    /\ p <> EmptyString /\ all_chars price_char p = true
    /\ all_chars (Ascii.eqb "]") rb = true
    /\ c1 = <[i := Some p]> c0.
Proof.
  intros M. cbv [Seqs] in M.
  apply matches_Seq_inv in M as (? & ? & ? & -> & M1 & M). separator M1.
  apply matches_Seq_inv in M as (lb & ? & ? & -> & M1 & M).
  eapply matches_Star_chars in M1 as [-> Hlb]; [|reflexivity].
  apply matches_Seq_inv in M as (p & ? & ? & -> & M1 & M).
  apply matches_Group_inv in M1 as (? & M1 & ->).
  eapply matches_Plus_chars in M1 as (-> & Hp & Hdigits); [|reflexivity].
  apply matches_Seq_inv in M as (rb & ? & ? & -> & M1 & M).
  eapply matches_Star_chars in M1 as [-> Hrb]; [|reflexivity].
  apply matches_Seq_inv in M as (? & ? & ? & -> & M1 & M). separator M1.
  separator M.
  exists lb, p, rb. split; [reflexivity|].
  split; [apply all_brackets; [reflexivity | reflexivity | exact Hlb]|].
  split; [exact Hp|].
  split; [revert Hdigits; apply all_chars_weaken; intros a; apply price_class|].
  split; [apply all_brackets; [reflexivity | reflexivity | exact Hrb] | reflexivity].
Qed.

Lemma order_pattern_sound (t : string) (c1 : captures) :
  matches order_pattern t (replicate 4 None) c1 ->
  exists a sym p,
    custom_alert t a sym p /\ c1 = [None; Some a; Some sym; Some p].
Proof.
  intros M. unfold order_pattern in M.
  change (Seqs (?r1 :: ?r2 :: ?r3 :: ?r4 :: ?r5 :: ?r6 :: ?rest))
    with (Seq r1 (Seq r2 (Seq r3 (Seq r4 (Seq r5 (Seq r6 (Seqs rest))))))) in M.
  apply matches_Seq_inv in M as (o & ? & ? & -> & M1 & M).
  apply matches_Str in M1 as [-> Ho].
  apply matches_Seq_inv in M as (a & ? & ? & -> & M1 & M).
  apply matches_Group_inv in M1 as (c'' & M1 & ->).
  assert (Ha : c'' = replicate 4 None
               /\ (lower_text a = "buy" \/ lower_text a = "sell")).
  { apply matches_Alt_inv in M1 as [M1|M1]; apply matches_Str in M1 as [-> Ht]; auto. }
  destruct Ha as [-> Ha]. clear M1.
  apply matches_Seq_inv in M as (? & ? & ? & -> & M1 & M). separator M1.
  apply matches_Seq_inv in M as (? & ? & ? & -> & M1 & M). separator M1.
  apply matches_Seq_inv in M as (? & ? & ? & -> & M1 & M). separator M1.
  apply matches_Seq_inv in M as (sym & ? & ? & -> & M1 & M).
  apply matches_Group_inv in M1 as (? & M1 & ->).
  eapply matches_Plus_chars in M1 as (-> & Hsym & Hline); [|reflexivity].
  apply price_part_sound in M as (lb & p & rb & -> & Hlb & Hp & Hdigits & Hrb & ->).
  exists a, sym, p. split; [|reflexivity].
  exists o, lb, rb. repeat split; auto.
Qed.

Lemma ldc_pattern_sound (t : string) (c1 : captures) :
  matches ldc_pattern t (replicate 5 None) c1 ->
  exists a hint sym p,
    ldc_alert t a hint sym p /\ c1 = [None; Some a; hint; Some sym; Some p].
Proof.
  intros M. unfold ldc_pattern in M.
  change (Seqs (?r1 :: ?r2 :: ?r3 :: ?r4 :: ?r5 :: ?r6 :: ?r7 :: ?rest))
    with (Seq r1 (Seq r2 (Seq r3 (Seq r4 (Seq r5 (Seq r6 (Seq r7 (Seqs rest)))))))) in M.
  apply matches_Seq_inv in M as (a & ? & ? & -> & M1 & M).
  apply matches_Group_inv in M1 as (c'' & M1 & ->).
  assert (Ha : c'' = replicate 5 None
               /\ (lower_text a = "bear" \/ lower_text a = "bull"
                   \/ lower_text a = "open" \/ lower_text a = "close")).
  { repeat (apply matches_Alt_inv in M1 as [M1|M1]);
      apply matches_Str in M1 as [-> Ht]; auto. }
  destruct Ha as [-> Ha]. clear M1.
  apply matches_Seq_inv in M as (u & ? & ? & -> & M1 & M).
  eapply matches_Plus_chars in M1 as (-> & Hu & Huline); [|reflexivity].
  apply matches_Seq_inv in M as (h & ? & c' & -> & M1 & M).
  assert (Hh : exists hint,
             c' = <[2%nat := hint]> (<[1%nat := Some a]> (replicate 5 None))
             /\ (hint = None /\ h = EmptyString
                 \/ hint = Some h /\ (lower_text h = "long" \/ lower_text h = "short"))).
  { apply matches_Alt_inv in M1 as [M1|M1].
    - apply matches_Group_inv in M1 as (c'' & M1 & ->).
      exists (Some h). apply matches_Alt_inv in M1 as [M1|M1];
        apply matches_Str in M1 as [-> Ht]; auto.
    - apply matches_Empty_inv in M1 as [-> ->]. exists None. auto. }
  destruct Hh as (hint & -> & Hh). clear M1.
  apply matches_Seq_inv in M as (v & ? & ? & -> & M1 & M).
  eapply matches_Plus_chars in M1 as (-> & Hv & Hvline); [|reflexivity].
  apply matches_Seq_inv in M as (? & ? & ? & -> & M1 & M). separator M1.
  apply matches_Seq_inv in M as (? & ? & ? & -> & M1 & M). separator M1.
  apply matches_Seq_inv in M as (sym & ? & ? & -> & M1 & M).
  apply matches_Group_inv in M1 as (? & M1 & ->).
  eapply matches_Plus_chars in M1 as (-> & Hsym & Hline); [|reflexivity].
  apply price_part_sound in M as (lb & p & rb & -> & Hlb & Hp & Hdigits & Hrb & ->).
  exists a, hint, sym, p. split; [|reflexivity].
  exists u, h, v, lb, rb. repeat split; auto.
Qed.

Lemma float_digits_nonneg (t : string) :
  forall (seen : bool) (nd : nat) (num : Z) (scale : positive) (x : Q),
    (0 <= num)%Z ->
    float_digits t seen nd num scale = Some x -> 0 <= x.
Proof.
  induction t as [|a t IH]; intros seen nd num scale x Hnum E; simpl in E.
  - destruct nd; [discriminate E|]. injection E as <-.
    rewrite Qred_correct. unfold Qle. simpl. lia.
  - destruct (Ascii.eqb a "."%char).
    + destruct seen; [discriminate E|]. eapply IH; [|exact E]. exact Hnum.
    + destruct (digit_of a) as [d|] eqn:Hd; [|discriminate E].
      eapply IH; [|exact E].
      unfold digit_of in Hd.
      destruct ((48 <=? Z.of_N (N_of_ascii a)) && (Z.of_N (N_of_ascii a) <=? 57))%Z eqn:Hr;
        [|discriminate Hd].
      injection Hd as <-. apply andb_true_iff in Hr as [H1 H2]. lia.
Qed.

Lemma py_float_nonneg (t : string) (x : Q) : py_float t = Some x -> 0 <= x.
Proof. apply float_digits_nonneg. lia. Qed.

Section SetData.

Context {W : Type} `{Environment W}.

(** A request that does not begin with [LDC] is read as a custom alert:
    when [setData] returns, the request holds the text [order], an
    action that is [buy] or [sell] up to case, the symbol and the price
    between the separators of the pattern, and [self.data] is these, with
    no position. *)
Theorem setData_reads_custom_alert (s s' : State W) :
  substring 0 3 (req (self s)) <> "LDC" ->
  setData s = Ok tt s' ->
  exists pre t post a sym p x,
    req (self s) = pre ++ t ++ post
    /\ custom_alert t a sym p
    /\ py_float p = Some x
    /\ 0 <= x
    /\ s' = with_self (with_data {| action := Some a; position := None;
                                    stock := Some sym; price := x |} (self s)) s.
Proof.
  intros Hldc E. unfold setData in E.
  destruct (String.eqb (substring 0 3 (req (self s))) "LDC") eqn:Hq;
    [apply String.eqb_eq in Hq; contradiction|].
  destruct (search_from order_pattern 3 (req (self s))) as [m|] eqn:Em;
    [|discriminate E].
  apply search_from_sound in Em as (pre & t & post & c1 & Hreq & M & ->).
  apply order_pattern_sound in M as (a & sym & p & Halert & ->).
  simpl in E. unfold bind in E.
  destruct (py_float p) as [x|] eqn:Hx; [|discriminate E].
  simpl in E. injection E as <-.
  exists pre, t, post, a, sym, p, x.
  repeat split; auto. apply (py_float_nonneg p), Hx.
Qed.

(** A request that begins with [LDC] is read as an alert of the
    indicator: the action is [bear], [bull], [open] or [close] up to
    case, and the position is [long] or [short] up to case where the
    pattern finds it, and [None] otherwise. *)
Theorem setData_reads_ldc_alert (s s' : State W) :
  substring 0 3 (req (self s)) = "LDC" ->
  setData s = Ok tt s' ->
  exists pre t post a hint sym p x,
    req (self s) = pre ++ t ++ post
    /\ ldc_alert t a hint sym p
    /\ py_float p = Some x
    /\ 0 <= x
    /\ s' = with_self (with_data {| action := Some a; position := hint;
                                    stock := Some sym; price := x |} (self s)) s.
Proof.
  intros Hldc E. unfold setData in E. rewrite Hldc in E.
  change (String.eqb "LDC" "LDC") with true in E. cbv iota in E.
  destruct (search_from ldc_pattern 4 (req (self s))) as [m|] eqn:Em;
    [|discriminate E].
  apply search_from_sound in Em as (pre & t & post & c1 & Hreq & M & ->).
  apply ldc_pattern_sound in M as (a & hint & sym & p & Halert & ->).
  simpl in E. unfold bind in E.
  destruct (py_float p) as [x|] eqn:Hx; [|discriminate E].
  simpl in E. injection E as <-.
  exists pre, t, post, a, hint, sym, p, x.
  repeat split; auto. apply (py_float_nonneg p), Hx.
Qed.

(** [setData] ends in one of three ways: it stores the data and changes
    nothing else; or the pattern is not found, and it logs the request
    as an error and raises; or the price is not a number, and [float]
    raises [ValueError].  The branch of lines 226-229 is never taken. *)
Theorem setData_outcomes (s : State W) :
  match setData s with
  | Ok _ s' => exists d, s' = with_self (with_data d (self s)) s
  | Raise e s' =>
      (exists msg, e = Exception msg)
      /\ s' = with_trace (EvLog ERROR (FailedToExtract (req (self s))) :: trace s) s
      \/ e = ValueError /\ s' = s
  | Diverge => False
  end.
Proof.
  unfold setData.
  destruct (String.eqb (substring 0 3 (req (self s))) "LDC").
  - destruct (search_from ldc_pattern 4 (req (self s))) as [m|] eqn:Em.
    + apply search_from_sound in Em as (pre & t & post & c1 & Hreq & M & ->).
      apply ldc_pattern_sound in M as (a & hint & sym & p & Halert & ->).
      simpl. unfold bind. destruct (py_float p) as [x|]; simpl; eauto.
    + simpl. left. eauto.
  - destruct (search_from order_pattern 3 (req (self s))) as [m|] eqn:Em.
    + apply search_from_sound in Em as (pre & t & post & c1 & Hreq & M & ->).
      apply order_pattern_sound in M as (a & sym & p & Halert & ->).
      simpl. unfold bind. destruct (py_float p) as [x|]; simpl; eauto.
    + simpl. left. eauto.
Qed.

End SetData.

(** ** The options of the constructor *)

Lemma union_size_le (n b : gmap string Value) : (size b <= size (n ∪ b))%nat.
Proof.
  rewrite <- !(size_dom (D := gset string)), dom_union_L.
  apply subseteq_size, union_subseteq_r.
Qed.

Lemma union_keeps_size (n b : gmap string Value) :
  size (n ∪ b) = size b <-> dom n ⊆ dom b.
Proof.
  rewrite <- !(size_dom (D := gset string)), dom_union_L. split.
  - intros Hs.
    assert (Hb : dom b = dom n ∪ dom b).
    { apply set_subseteq_size_eq; [apply union_subseteq_r | lia]. }
    rewrite Hb. apply union_subseteq_l.
  - intros Hsub. rewrite (subseteq_union_1_L _ _ Hsub). reflexivity.
Qed.

Section Constructor.

Context {W : Type} `{Environment W}.

Lemma init_refuses (fuel : nat) (paper : bool) (req : string)
    (newOptions : gmap string Value) (s : State W) :
  ~ dom newOptions ⊆ dom (base_options s) ->
  AutomatedTrader_init fuel paper req newOptions s
  = Raise (Exception "Extra options found. Verify newOption keys match option keys")
          (with_options (effective_options s newOptions)
             (with_self {| options_shared := (0 <? size (settings s))%nat;
                           own_options := default_options;
                           paper := paper; req := req;
                           data := None; order_data := None; order := None |} s)).
Proof.
  intros Hnew. unfold AutomatedTrader_init, new_instance, update_options, options_size.
  unfold bind at 1 2 3 4.
  set (s0 := with_self _ s).
  assert (Hbase : options s0 = base_options s).
  { unfold base_options, options, s0.
    destruct (0 <? size (settings s))%nat eqn:E; simpl; rewrite ?E; reflexivity. }
  rewrite options_with_options, Hbase.
  destruct (size (newOptions ∪ base_options s) =? size (base_options s))%nat eqn:E.
  - apply Nat.eqb_eq, union_keeps_size in E. contradiction.
  - reflexivity.
Qed.

(** An option of [newOptions] that the trader does not know is refused:
    the constructor raises before it reads the request or calls the
    broker.  The options have been merged by then, the unknown one
    included. *)
Theorem unknown_option_is_refused (fuel : nat) (paper : bool) (req : string)
    (newOptions : gmap string Value) (s : State W) :
  ~ dom newOptions ⊆ dom (base_options s) ->
  exists s',
    AutomatedTrader_init fuel paper req newOptions s
    = Raise (Exception "Extra options found. Verify newOption keys match option keys") s'
    /\ world s' = world s
    /\ trace s' = trace s
    /\ data (self s') = None
    /\ options s' = effective_options s newOptions.
Proof.
  intros Hnew. eexists. split; [apply init_refuses, Hnew|].
  autorewrite with state.
  repeat split; unfold with_options; simpl; destruct (0 <? size (settings s))%nat;
    reflexivity.
Qed.

(** When the trader uses the module's [settings], the refused options
    stay in them: a second construction with the same [newOptions] finds
    nothing new and is not refused.  (The trader is one with [enabled]
    false, so that the second construction has nothing else to do.) *)
Theorem refused_options_stay (fuel : nat) (paper : bool) (req : string)
    (newOptions : gmap string Value) (s : State W) :
  (0 < size (settings s))%nat ->
  ~ dom newOptions ⊆ dom (settings s) ->
  option_false (newOptions ∪ settings s) "enabled" ->
  exists s1 s2,
    AutomatedTrader_init fuel paper req newOptions s
    = Raise (Exception "Extra options found. Verify newOption keys match option keys") s1
    /\ settings s1 = newOptions ∪ settings s
    /\ AutomatedTrader_init fuel paper req newOptions s1 = Ok tt s2
    /\ settings s2 = newOptions ∪ settings s.
Proof.
  intros Hsize Hnew (v & Hv & Tv).
  assert (Hshared : (0 <? size (settings s))%nat = true) by (apply Nat.ltb_lt, Hsize).
  assert (Hbase : base_options s = settings s)
    by (unfold base_options; rewrite Hshared; reflexivity).
  eexists. eexists. split; [apply init_refuses; rewrite Hbase; exact Hnew|].
  unfold effective_options. rewrite Hbase, Hshared.
  unfold with_options. simpl. split; [reflexivity|].
  set (s1 := with_settings _ _).
  assert (Hsize1 : (0 <? size (newOptions ∪ settings s))%nat = true).
  { apply Nat.ltb_lt. eapply Nat.lt_le_trans; [exact Hsize | apply union_size_le]. }
  unfold AutomatedTrader_init, new_instance, update_options, options_size.
  unfold bind at 1 2 3 4.
  set (s0 := with_self _ s1).
  assert (Hopt0 : options s0 = newOptions ∪ settings s)
    by (unfold options, s0, s1; simpl; rewrite Hsize1; reflexivity).
  assert (Hidem : newOptions ∪ (newOptions ∪ settings s) = newOptions ∪ settings s)
    by (rewrite (assoc_L (∪)), (idemp_L (∪)); reflexivity).
  rewrite options_with_options, Hopt0, Hidem, Nat.eqb_refl. cbn [negb].
  rewrite (bind_opt "enabled" v) by (rewrite options_with_options; exact Hv).
  rewrite Tv. mrun.
  rewrite ?(bind_opt "enabled" v) by (rewrite options_with_options; exact Hv).
  rewrite ?Tv. split; [reflexivity|].
  unfold with_options, s0, s1. simpl. rewrite Hsize1. reflexivity.
Qed.

End Constructor.

(** ** The queries of the constructor *)

Section Fetching.

Context {W : Type} `{Environment W}.

Lemma call_inv {A} (op : W -> (Exn + A) * W) (ev : Event) (s s' : State W) (a : A) :
  call op ev s = Ok a s' ->
  op (world s) = (inr a, world s')
  /\ s' = with_world (snd (op (world s))) (with_trace (ev :: trace s) s).
Proof.
  unfold call. destruct (op (world s)) as [[e|x] w']; intros E; inversion E; subst.
  split; reflexivity.
Qed.

Lemma for_each_print {A} (xs : list A) (f : A -> list Value) (s : State W) :
  for_each xs (fun x => emit (EvPrint (f x))) s
  = Ok tt (with_trace (rev (map (fun x => EvPrint (f x)) xs) ++ trace s)%list s).
Proof.
  revert s. induction xs as [|x xs IH]; intros s; [destruct s; reflexivity|].
  simpl for_each. rewrite bind_emit, IH. simpl.
  rewrite <- app_assoc. reflexivity.
Qed.

Lemma bind_for_each_print {A B} (xs : list A) (f : A -> list Value)
    (k : unit -> M W B) (s : State W) :
  bind (for_each xs (fun x => emit (EvPrint (f x)))) k s
  = k tt (with_trace (rev (map (fun x => EvPrint (f x)) xs) ++ trace s)%list s).
Proof. unfold bind. rewrite for_each_print. reflexivity. Qed.

Lemma setPosition_run (s : State W) :
  setPosition s
  = Ok tt
      match data (self s) with
      | None => with_options (<["positions" := VNone]> (options s)) s
      | Some d =>
          let answer := get_open_position (stock d) (world s) in
          let s1 := with_world (snd answer)
                      (with_trace (EvGetOpenPosition (stock d) :: trace s) s) in
          with_options (<["positions" := match fst answer with
                                           | inr p => VPosition p
                                           | inl _ => VNone
                                           end]> (options s1)) s1
      end.
Proof.
  unfold setPosition, try_except, the_data, bind.
  destruct (data (self s)) as [d|] eqn:Hd; [|reflexivity].
  unfold call. destruct (get_open_position (stock d) (world s)) as [[e|p] w'];
    reflexivity.
Qed.

(** [setPosition] never raises.  Whatever goes wrong with the query, a
    broker that fails for any reason or a request that was not parsed,
    [positions] is [None], as for a symbol of which nothing is held. *)
Theorem setPosition_never_raises (s : State W) :
  exists s',
    setPosition s = Ok tt s'
    /\ match data (self s) with
       | None =>
           s' = with_options (<["positions" := VNone]> (options s)) s
       | Some d =>
           let answer := get_open_position (stock d) (world s) in
           world s' = snd answer
           /\ trace s' = EvGetOpenPosition (stock d) :: trace s
           /\ options s' = <["positions" := match fst answer with
                                             | inr p => VPosition p
                                             | inl _ => VNone
                                             end]> (options s)
       end.
Proof.
  eexists. split; [apply setPosition_run|].
  destruct (data (self s)) as [d|]; [|reflexivity].
  cbv zeta. autorewrite with state. auto.
Qed.

Lemma setOrders_inv (s s' : State W) (d : Data) :
  setOrders s = Ok tt s' ->
  data (self s) = Some d ->
  exists all,
    data (self s') = Some d
    /\ options s' !! "allOrders" = Some (VOrders all)
    /\ trace s'
       = (EvGetOrders (Some [stock d])
            :: rev (map (fun x => EvPrint [of_group (symbol x); VNum (qty x)]) all)
            ++ EvGetOrders None :: trace s)%list.
Proof.
  intros E Hd. unfold setOrders in E.
  apply bind_inv_ok in E as (all & s1 & Ec & E).
  apply call_inv in Ec as [_ ->].
  revert E. mrun. change (as_orders (VOrders all)) with (ret (W := W) all). mrun.
  rewrite bind_for_each_print.
  rewrite (bind_the_data d) by (simpl; autorewrite with state; exact Hd).
  intros E.
  apply bind_inv_ok in E as (orders & s2 & Ec & E).
  apply call_inv in Ec as [_ ->].
  unfold set_opt in E. injection E as <-.
  exists all. autorewrite with state. simpl. autorewrite with state. simpl.
  split; [exact Hd|]. split; [|reflexivity].
  rewrite lookup_insert_ne by discriminate. autorewrite with state. simpl.
  autorewrite with state. apply lookup_insert_eq.
Qed.

Lemma setPosition_inv (s s' : State W) (d : Data) :
  setPosition s = Ok tt s' ->
  data (self s) = Some d ->
  data (self s') = Some d
  /\ trace s' = EvGetOpenPosition (stock d) :: trace s
  /\ options s' !! "allOrders" = options s !! "allOrders".
Proof.
  intros E Hd. rewrite setPosition_run, Hd in E. injection E as <-.
  cbv zeta. autorewrite with state. simpl.
  split; [exact Hd|]. split; [reflexivity|].
  rewrite lookup_insert_ne by discriminate. reflexivity.
Qed.

Lemma setBalance_inv (s s' : State W) :
  setBalance s = Ok tt s' ->
  data (self s') = data (self s)
  /\ trace s' = EvGetAccount :: trace s
  /\ options s' !! "allOrders" = options s !! "allOrders".
Proof.
  intros E. unfold setBalance in E.
  apply bind_inv_ok in E as (a & s1 & Ec & E).
  apply call_inv in Ec as [_ ->].
  unfold set_opt in E. injection E as <-.
  autorewrite with state. simpl.
  split; [reflexivity|]. split; [reflexivity|].
  rewrite lookup_insert_ne by discriminate. reflexivity.
Qed.

(** What the constructor asks the broker before it decides: when the
    four [set] methods return, they have made four queries and no other
    call, in this order: all open orders, the open orders for the symbol
    of the request, the position in it, the account.  (The trace is
    newest first; every open order is printed after the first query.) *)
Theorem four_queries_before_the_decision (s s' : State W) :
  (setData;; setOrders;; setPosition;; setBalance) s = Ok tt s' ->
  exists d all,
    data (self s') = Some d
    /\ options s' !! "allOrders" = Some (VOrders all)
    /\ trace s'
       = ([EvGetAccount; EvGetOpenPosition (stock d); EvGetOrders (Some [stock d])]
            ++ rev (map (fun x => EvPrint [of_group (symbol x); VNum (qty x)]) all)
            ++ EvGetOrders None :: trace s)%list.
Proof.
  intros E.
  apply bind_inv_ok in E as ([] & s1 & E1 & E).
  pose proof (setData_outcomes s) as Hdata. rewrite E1 in Hdata.
  destruct Hdata as [d ->]. clear E1.
  apply bind_inv_ok in E as ([] & s2 & E2 & E).
  apply (setOrders_inv _ _ d) in E2 as (all & Hd2 & Hall2 & Ht2); [|reflexivity].
  apply bind_inv_ok in E as ([] & s3 & E3 & E).
  apply (setPosition_inv _ _ d) in E3 as (Hd3 & Ht3 & Hall3); [|exact Hd2].
  apply setBalance_inv in E as (Hd4 & Ht4 & Hall4).
  exists d, all. split; [congruence|]. split; [congruence|].
  rewrite Ht4, Ht3, Ht2. reflexivity.
Qed.

End Fetching.

(** ** Open orders are cancelled *)

Section CancelAll.

Context {W : Type} `{Environment W}.

(** The broker accepts every request to cancel. *)
Hypothesis cancel_succeeds :
  forall (i : string) (w : W), fst (cancel_order_by_id i w) = inr tt.

Lemma bind_call_ok {A B} (op : W -> (Exn + A) * W) (ev : Event) (a : A) (w' : W)
    (k : A -> M W B) (s : State W) :
  op (world s) = (inr a, w') ->
  bind (call op ev) k s = k a (with_world w' (with_trace (ev :: trace s) s)).
Proof. intros E. unfold bind, call. rewrite E. reflexivity. Qed.

Lemma cancel_each (d : Data) (xs : list Order) :
  forall s : State W,
    data (self s) = Some d ->
    exists s',
      for_each xs (fun x =>
        call (cancel_order_by_id (id_hex x)) (EvCancelOrderById (id_hex x));;
        d <- the_data;;
        log INFO (CanceledOrder d (id_hex x))) s = Ok tt s'
      /\ trace s'
         = (rev (flat_map (fun x => [EvCancelOrderById (id_hex x);
                                     EvLog INFO (CanceledOrder d (id_hex x))]) xs)
              ++ trace s)%list
      /\ self s' = self s
      /\ settings s' = settings s.
Proof.
  induction xs as [|x xs IH]; intros s Hd.
  - exists s. auto.
  - simpl for_each. rewrite !bind_bind.
    pose proof (cancel_succeeds (id_hex x) (world s)) as Hc.
    rewrite (bind_call_ok _ _ tt (snd (cancel_order_by_id (id_hex x) (world s))))
      by (destruct (cancel_order_by_id (id_hex x) (world s)); simpl in *; congruence).
    rewrite ?bind_bind. rewrite (bind_the_data d) by exact Hd.
    unfold log. rewrite ?bind_bind, bind_emit.
    match goal with |- context [for_each xs _ ?s1] =>
      destruct (IH s1) as (s' & E & Ht & Hself & Hset); [exact Hd|] end.
    exists s'. split; [exact E|]. rewrite Ht, Hself, Hset. simpl.
    rewrite <- !app_assoc. auto.
Qed.

(** Called without an id on an enabled trader, [cancelOrderById] asks
    the broker to cancel every order of [options["orders"]], in their
    order, logs each, and returns [None]. *)
Theorem cancelOrderById_cancels_each (s : State W) (d : Data) (xs : list Order) :
  option_true (options s) "enabled" ->
  options s !! "orders" = Some (VOrders xs) ->
  data (self s) = Some d ->
  exists s',
    cancelOrderById None s = Ok None s'
    /\ trace s'
       = (rev (flat_map (fun x => [EvCancelOrderById (id_hex x);
                                   EvLog INFO (CanceledOrder d (id_hex x))]) xs)
            ++ trace s)%list
    /\ options s' = options s
    /\ self s' = self s.
Proof.
  intros (en & Hen & Ten) Horders Hd.
  destruct (cancel_each d xs s Hd) as (s' & E & Ht & Hself & Hset).
  exists s'. unfold cancelOrderById.
  rewrite (bind_opt "enabled" en) by exact Hen. rewrite Ten. cbn [negb].
  rewrite (bind_opt "orders" (VOrders xs)) by exact Horders.
  change (as_orders (VOrders xs)) with (ret (W := W) xs). rewrite bind_ret.
  unfold bind at 1. rewrite E. split; [reflexivity|].
  split; [exact Ht|]. split; [|exact Hself].
  unfold options. rewrite Hself, Hset. reflexivity.
Qed.

End CancelAll.

(** ** A price of 0 *)

Section ZeroPrice.

Context {W : Type} `{Environment W}.

(** The price pattern accepts [0], and a request priced 0 ends in
    [ZeroDivisionError]: [createOrder] divides by the price before it
    looks at the action. *)
Theorem zero_price_raises
    (fuel : nat) (s : State W) (d : Data) (testMode : Value) (balance buyPerc : Q) :
  data (self s) = Some d ->
  price d == 0 ->
  options s !! "orders" = Some (VOrders []) ->
  options s !! "testMode" = Some testMode ->
  options s !! "balance" = Some (VNum balance) ->
  options s !! "buyPerc" = Some (VNum buyPerc) ->
  createOrder fuel s = Raise ZeroDivisionError (after_amount testMode balance s).
Proof.
  intros Hd Hprice Horders Htm Hbal Hbp.
  apply Qeqb_eq in Hprice.
  unfold createOrder.
  rewrite (bind_opt "orders" (VOrders [])) by exact Horders.
  change (len (VOrders [])) with (ret (W := W) 0%nat). mrun. cbn [Nat.ltb Nat.leb].
  mrun. unfold createOrder_decision, createOrder_amount, after_amount, py_div.
  mrun. destruct (truthy testMode); mrun.
  - rewrite Hprice. reflexivity.
  - destruct (Qltb balance 0); mrun; rewrite Hprice; reflexivity.
Qed.

End ZeroPrice.

(** ** The supervision once the timeout flag is set *)

Ltac stable_side :=
  intros;
  first
    [ assumption
    | match goal with
      | Hst : stable _ _ |- _ =>
          first
            [ apply (stable_event Hst); [reflexivity | assumption]
            | apply (stable_world Hst), (stable_event Hst); [reflexivity | assumption]
            | apply (stable_world Hst); assumption ]
      end ].

Section Flagged.

Context {W : Type} `{Environment W}.

Variable Inv : State W -> Prop.
Hypothesis Inv_stable : stable supervision_event Inv.

Lemma stable_cancelOrderById (i : string) :
  preserves Inv Inv True (cancelOrderById (W := W) (Some i)).
Proof. unfold cancelOrderById. preserved stable_side. Qed.

Lemma stable_verifyOrder_result (o : Order) :
  preserves Inv Inv True (verifyOrder_result (W := W) o).
Proof. unfold verifyOrder_result. preserved stable_side. Qed.

Lemma stable_verifyOrder_while
    (self_call : Order -> bool -> M W Value) (mt tmt : Value) (b1 b2 : bool)
    (start : Q) (id : string) :
  forall (n : nat) (o : Order),
    preserves Inv Inv True (verifyOrder_while self_call n mt tmt b1 b2 start id o true).
Proof.
  induction n as [|n IH]; intros o; simpl; [intros s Hs; exact I|].
  unfold exceeds.
  preserved_with
    ltac:(first [ apply IH
                | apply stable_cancelOrderById
                | apply stable_verifyOrder_result
                | rewrite andb_false_r ])
    stable_side.
Qed.

Lemma stable_verifyOrder (fuel : nat) (o : Order) :
  preserves Inv Inv True (verifyOrder fuel o true).
Proof.
  destruct fuel as [|fuel]; simpl; [intros s Hs; exact I|].
  preserved_with ltac:(apply stable_verifyOrder_while) stable_side.
Qed.

End Flagged.

Section FlaggedEvents.

Context {W : Type} `{Environment W}.

Lemma since_stable (p q : Event -> bool) (t0 : list Event) :
  (forall e, q e = true -> p e = true) ->
  stable q (since (W := W) p t0).
Proof.
  intros Hqp. split.
  - intros e s He (added & Ht & Hall). exists (e :: added). split.
    + simpl. rewrite Ht. reflexivity.
    + constructor; auto.
  - intros w s Hs. exact Hs.
Qed.

(** Once the timeout flag is set, [verifyOrder] escalates nothing: all
    it does is to poll, to sleep, to cancel at the fail-safe and to log
    the outcome.  It submits no order and prints nothing, whatever the
    policies and the broker are. *)
Theorem flagged_verifyOrder_only_waits (fuel : nat) (o : Order) (s : State W) :
  match verifyOrder fuel o true s with
  | Ok _ s' | Raise _ s' =>
      exists added,
        trace s' = (added ++ trace s)%list
        /\ Forall (fun e => supervision_event e = true) added
        /\ submitted added = []
  | Diverge => True
  end.
Proof.
  assert (Hrun := stable_verifyOrder (since supervision_event (trace s))
                    (since_stable _ _ _ (fun e He => He)) fuel o s).
  assert (Hstart : since supervision_event (trace s) s)
    by (exists []; split; [reflexivity | constructor]).
  specialize (Hrun Hstart).
  assert (Hnone : forall added,
             Forall (fun e => supervision_event e = true) added -> submitted added = []).
  { induction 1 as [|e l He _ IH]; [reflexivity|].
    unfold submitted in *. simpl. destruct e; try discriminate He; exact IH. }
  destruct (verifyOrder fuel o true s) as [r s'|e s'|]; [| |exact I];
    destruct Hrun as (added & Ht & Hall); exists added; auto.
Qed.

End FlaggedEvents.

(** ** The orders of one alert *)

Section Placing.

Context {W : Type} `{Environment W}.

Variable d : Data.
Variable t0 : list Event.

Lemma submitted_cons (e : Event) (l : list Event) :
  is_submission e = false -> submitted (e :: l) = submitted l.
Proof. destruct e; try discriminate; reflexivity. Qed.

Lemma submitted_app (l1 l2 : list Event) :
  submitted (l1 ++ l2)%list = (submitted l1 ++ submitted l2)%list.
Proof. apply omap_app. Qed.

Lemma placing_event (P : list OrderRequest -> Prop) (e : Event) (s : State W) :
  is_submission e = false ->
  placing d t0 P s -> placing d t0 P (with_trace (e :: trace s) s).
Proof.
  intros He (Hd & added & Ht & HP). split; [exact Hd|].
  exists (e :: added). split; [simpl; rewrite Ht; reflexivity|].
  rewrite (submitted_cons e added He). exact HP.
Qed.

Lemma placing_world (P : list OrderRequest -> Prop) (w : W) (s : State W) :
  placing d t0 P s -> placing d t0 P (with_world w s).
Proof. intros Hs. exact Hs. Qed.

Lemma placing_options (P : list OrderRequest -> Prop) (o : gmap string Value)
    (s : State W) :
  placing d t0 P s -> placing d t0 P (with_options o s).
Proof.
  intros (Hd & Ht). split; [rewrite data_with_options | rewrite trace_with_options];
    assumption.
Qed.

Lemma placing_order_data (P : list OrderRequest -> Prop) (r : OrderRequest)
    (s : State W) :
  placing d t0 P s -> placing d t0 P (with_self (with_order_data r (self s)) s).
Proof. intros Hs. exact Hs. Qed.

Lemma placing_order (P : list OrderRequest -> Prop) (o : Order) (s : State W) :
  placing d t0 P s -> placing d t0 P (with_self (with_order o (self s)) s).
Proof. intros Hs. exact Hs. Qed.

Lemma placing_weaken (P P' : list OrderRequest -> Prop) (s : State W) :
  (forall l, P l -> P' l) -> placing d t0 P s -> placing d t0 P' s.
Proof. intros HP (Hd & added & Ht & Hl). split; [exact Hd|]. exists added. auto. Qed.

Lemma placing_submit (P : list OrderRequest -> Prop) (r : OrderRequest) (w : W)
    (s : State W) :
  placing d t0 P s ->
  placing d t0 (fun l => exists l0, l = r :: l0 /\ P l0)
          (with_world w (with_trace (EvSubmitOrder r :: trace s) s)).
Proof.
  intros (Hd & added & Ht & HP). split; [exact Hd|].
  exists (EvSubmitOrder r :: added). split; [simpl; rewrite Ht; reflexivity|].
  exists (submitted added). auto.
Qed.

Lemma placing_stable (P : list OrderRequest -> Prop) :
  stable supervision_event (placing (W := W) d t0 P).
Proof.
  split.
  - intros e s He. apply placing_event. destruct e; try discriminate He; reflexivity.
  - intros w s. apply placing_world.
Qed.

Lemma placing_data (P : list OrderRequest -> Prop) (s : State W) :
  placing d t0 P s -> data (self s) = Some d.
Proof. intros [Hd _]. exact Hd. Qed.

End Placing.

(** What the placing of orders survives: an event that is no submission,
    a move of the world, a change of the options, of the stored request
    or of the stored order, and a weaker statement about the orders. *)
Ltac placing_side tac :=
  intros;
  first
    [ assumption
    | apply placing_event; [reflexivity | assumption]
    | apply placing_world, placing_event; [reflexivity | assumption]
    | apply placing_options; assumption
    | apply placing_order_data; assumption
    | apply placing_order; assumption
    | eapply placing_weaken; [|eassumption]; solve [tac] ].

Section Hoare.

Context {W : Type} `{Environment W}.

Lemma hoare_conseq {A} (P P' : State W -> Prop) (m : M W A)
    (Q Q' : A -> State W -> Prop) (R R' : State W -> Prop) :
  (forall s, P' s -> P s) ->
  (forall a s, Q a s -> Q' a s) ->
  (forall s, R s -> R' s) ->
  hoare P m Q R -> hoare P' m Q' R'.
Proof.
  intros HP HQ HR Hm s Hs. specialize (Hm s (HP s Hs)).
  destruct (m s) as [a s'|e s'|]; auto.
Qed.

Lemma hoare_bind {A B} (P : State W -> Prop) (m : M W A) (f : A -> M W B)
    (Q : A -> State W -> Prop) (Q' : B -> State W -> Prop) (R : State W -> Prop) :
  hoare P m Q R -> (forall a, hoare (Q a) (f a) Q' R) -> hoare P (bind m f) Q' R.
Proof.
  intros Hm Hf s Hs. unfold bind. specialize (Hm s Hs).
  destruct (m s) as [a s'|e s'|]; auto. apply Hf, Hm.
Qed.

Lemma hoare_ext {A} (P : State W -> Prop) (m m' : M W A)
    (Q : A -> State W -> Prop) (R : State W -> Prop) :
  (forall s, m s = m' s) -> hoare P m' Q R -> hoare P m Q R.
Proof. intros Hext Hm s Hs. rewrite Hext. apply Hm, Hs. Qed.

Lemma hoare_ret {A} (P : State W -> Prop) (a : A)
    (Q : A -> State W -> Prop) (R : State W -> Prop) :
  (forall s, P s -> Q a s) -> hoare P (ret a) Q R.
Proof. intros HQ s Hs. apply HQ, Hs. Qed.

Lemma hoare_raise {A} (P : State W -> Prop) (e : Exn)
    (Q : A -> State W -> Prop) (R : State W -> Prop) :
  (forall s, P s -> R s) -> hoare P (raise e) Q R.
Proof. intros HR s Hs. apply HR, Hs. Qed.

Lemma hoare_if {A} (P : State W -> Prop) (b : bool) (m1 m2 : M W A)
    (Q : A -> State W -> Prop) (R : State W -> Prop) :
  hoare P m1 Q R -> hoare P m2 Q R -> hoare P (if b then m1 else m2) Q R.
Proof. destruct b; auto. Qed.

(** A program that keeps the invariant [I], and one that goes on from
    it. *)
Lemma hoare_preserves {A} (I R : State W -> Prop) (m : M W A) :
  preserves I R True m -> hoare I m (fun _ => I) R.
Proof. intros Hm. exact Hm. Qed.

Lemma hoare_then {A B} (I : State W -> Prop) (m : M W A) (f : A -> M W B)
    (Q : B -> State W -> Prop) (R : State W -> Prop) :
  preserves I R True m -> (forall a, hoare I (f a) Q R) -> hoare I (bind m f) Q R.
Proof. intros Hm Hf. eapply hoare_bind; [apply hoare_preserves, Hm | exact Hf]. Qed.

Lemma hoare_last {A} (I : State W -> Prop) (m : M W A)
    (Q : A -> State W -> Prop) (R : State W -> Prop) :
  (forall s, I s -> forall a, Q a s) ->
  preserves I R True m -> hoare I m Q R.
Proof.
  intros HQ Hm s Hs. specialize (Hm s Hs).
  destruct (m s) as [a s'|e s'|]; auto.
Qed.

(** Under an invariant that fixes the alert, [self.data] is that alert. *)
Lemma hoare_the_data {B} (I : State W -> Prop) (d : Data) (f : Data -> M W B)
    (Q : B -> State W -> Prop) (R : State W -> Prop) :
  (forall s, I s -> data (self s) = Some d) ->
  hoare I (f d) Q R -> hoare I (bind the_data f) Q R.
Proof.
  intros Hd Hf s Hs. rewrite (bind_the_data d) by (apply Hd, Hs). apply Hf, Hs.
Qed.

End Hoare.

Ltac placing_weaker :=
  first
    [ intros ? ?; assumption
    | intros ? <-; left; reflexivity
    | intros ? (? & -> & <-); right; eexists; split; [reflexivity|];
      eexists; eexists; reflexivity ].

Ltac placing_steps_with known :=
  preserved_with known ltac:(placing_side placing_weaker).

Ltac placing_steps := placing_steps_with ltac:(fail).

Ltac hoare_steps_with known :=
  repeat first
    [ known
    | eapply hoare_ext; [intros; rewrite bind_bind; reflexivity|]
    | eapply hoare_ext; [intros; rewrite bind_ret; reflexivity|]
    | eapply hoare_the_data; [intros ? [? _]; eassumption|]
    | apply hoare_then; [solve [placing_steps] | intros ?]
    | apply hoare_if
    | apply hoare_ret; solve [placing_side placing_weaker]
    | apply hoare_raise; solve [placing_side placing_weaker]
    | apply hoare_last; [solve [placing_side placing_weaker] | solve [placing_steps]] ].

Section Places.

Context {W : Type} `{Environment W}.

Variable d : Data.

Lemma orderType_market_places (t0 : list Event) (P : list OrderRequest -> Prop)
    (R : State W -> Prop) (amount : Q) (sd : OrderSide) :
  (forall s, placing d t0 P s -> R s) ->
  hoare (placing (W := W) d t0 P) (orderType amount sd false)
        (fun _ s => placing d t0 P s
                    /\ order_data (self s)
                       = Some (MarketOrderRequest (stock d) amount sd GTC))
        R.
Proof.
  intros HR. unfold orderType. simpl.
  eapply hoare_ext; [intros; rewrite bind_bind; reflexivity|].
  intros s Hs. rewrite (bind_the_data d) by (apply Hs).
  rewrite bind_ret. simpl. split; [apply placing_order_data, Hs | reflexivity].
Qed.

Lemma orderType_places (t0 : list Event) (P : list OrderRequest -> Prop)
    (amount : Q) (sd : OrderSide) (limit : bool) :
  hoare (placing (W := W) d t0 P) (orderType amount sd limit)
        (fun _ s => placing d t0 P s
                    /\ exists r, order_data (self s) = Some r
                                 /\ request_symbol r = stock d
                                 /\ request_qty r = amount)
        (placing d t0 P).
Proof.
  destruct limit.
  - unfold orderType. simpl.
    hoare_steps_with ltac:(fail).
    intros s Hs. simpl. split; [apply placing_order_data, Hs|].
    eexists. split; [reflexivity|]. split; reflexivity.
  - eapply hoare_conseq; [| | |apply (orderType_market_places t0 P (placing d t0 P))];
      [auto | | auto | auto].
    intros _ s [Hs Hod]. split; [exact Hs|]. eexists. split; [exact Hod|].
    split; reflexivity.
Qed.

(** The stored request goes to the broker: it is the next order placed,
    whether the broker takes it or raises. *)
Lemma submit_stored {A} (t0 : list Event) (P : list OrderRequest -> Prop)
    (r : OrderRequest) (f : Order -> M W A)
    (Q : A -> State W -> Prop) (R : State W -> Prop) :
  (forall s, placing d t0 (fun l => exists l0, l = r :: l0 /\ P l0) s -> R s) ->
  (forall o, hoare (placing d t0 (fun l => exists l0, l = r :: l0 /\ P l0)) (f o) Q R) ->
  hoare (fun s => placing d t0 P s /\ order_data (self s) = Some r)
        (od <- the_order_data;;
         o <- call (submit_order od) (EvSubmitOrder od);;
         f o) Q R.
Proof.
  intros HR Hf s [Hs Hod]. rewrite (bind_the_order_data r) by exact Hod.
  unfold bind, call. destruct (submit_order r (world s)) as [[e|o] w'].
  - apply HR, placing_submit, Hs.
  - apply Hf, placing_submit, Hs.
Qed.

Section Escalation.

Variable self_call : Order -> bool -> M W Value.

Hypothesis self_call_waits :
  forall (t0 : list Event) (P : list OrderRequest -> Prop) (o : Order),
    preserves (placing d t0 P) (placing d t0 P) True (self_call o true).

Lemma timeout_policy_places (t0 : list Event) (P P' : list OrderRequest -> Prop)
    (policy : string) (b1 b2 : bool) :
  (forall l, P l -> P' l) ->
  preserves (placing (W := W) d t0 P) (placing d t0 P') True (timeout_policy policy b1 b2).
Proof.
  intros HP. unfold timeout_policy.
  preserved ltac:(intros; first [assumption | eapply placing_weaken; eassumption]).
Qed.

Lemma cancelOrderById_places (t0 : list Event) (P P' : list OrderRequest -> Prop)
    (id : option string) :
  (forall l, P l -> P' l) ->
  preserves (placing (W := W) d t0 P) (placing d t0 P') True (cancelOrderById id).
Proof.
  intros HP. unfold cancelOrderById.
  preserved ltac:(placing_side ltac:(exact HP)).
Qed.

Lemma preserves_raising {A} (I J J' : State W -> Prop) (D : Prop) (m : M W A) :
  (forall s, J s -> J' s) -> preserves I J D m -> preserves I J' D m.
Proof.
  intros HJ Hm s Hs. specialize (Hm s Hs). destruct (m s) as [a s'|e s'|]; auto.
Qed.

Lemma verifyOrder_escalate_places (t0 : list Event) (o : Order) (id : string)
    (b1 b2 : bool) (mt : Value) :
  hoare (placing d t0 (eq []))
        (verifyOrder_escalate self_call o id b1 b2 mt)
        (fun _ => placing d t0 (at_most_one_market d))
        (placing d t0 (at_most_one_market d)).
Proof.
  unfold verifyOrder_escalate.
  hoare_steps_with
    ltac:(first
            [ apply hoare_then;
              [ eapply preserves_raising; [|apply self_call_waits];
                solve [placing_side placing_weaker]
              | intros ? ]
            | eapply hoare_bind;
              [ apply orderType_market_places; solve [placing_side placing_weaker]
              | intros ? ]
            | apply submit_stored; [solve [placing_side placing_weaker] | intros ?] ]).
Qed.

Lemma verifyOrder_while_places (t0 : list Event) (mt tmt : Value) (b1 b2 : bool)
    (start : Q) (id : string) :
  forall (n : nat) (o : Order),
    hoare (placing d t0 (eq []))
          (verifyOrder_while self_call n mt tmt b1 b2 start id o false)
          (fun _ => placing d t0 (at_most_one_market d))
          (placing d t0 (at_most_one_market d)).
Proof.
  induction n as [|n IH]; intros o; simpl; [intros s Hs; exact I|].
  unfold exceeds.
  hoare_steps_with
    ltac:(first
            [ apply IH
            | eapply hoare_bind;
              [ apply verifyOrder_escalate_places
              | intros ?; apply hoare_preserves;
                solve [preserved_with
                         ltac:(apply stable_verifyOrder_while, placing_stable)
                         ltac:(placing_side placing_weaker)] ] ]).
Qed.

End Escalation.

End Places.

Section PlacesOrders.

Context {W : Type} `{Environment W}.

Variable d : Data.

Lemma verifyOrder_waits (fuel : nat) (t0 : list Event) (P : list OrderRequest -> Prop)
    (o : Order) :
  preserves (placing (W := W) d t0 P) (placing d t0 P) True (verifyOrder fuel o true).
Proof. apply stable_verifyOrder, placing_stable. Qed.

Lemma verifyOrder_places (fuel : nat) (t0 : list Event) (o : Order) :
  hoare (placing (W := W) d t0 (eq []))
        (verifyOrder fuel o false)
        (fun _ => placing d t0 (at_most_one_market d))
        (placing d t0 (at_most_one_market d)).
Proof.
  destruct fuel as [|fuel]; simpl; [intros s Hs; exact I|].
  hoare_steps_with
    ltac:(apply verifyOrder_while_places; intros; apply verifyOrder_waits).
Qed.

(** A program that is known from an empty start goes on from any
    start: what it places comes on top of what was placed. *)
Lemma placing_shift {A} (m : M W A) (t0 : list Event)
    (P0 P1 : list OrderRequest -> Prop) :
  (forall t1, hoare (placing d t1 (eq [])) m
                    (fun _ => placing d t1 P1) (placing d t1 P1)) ->
  hoare (placing d t0 P0) m
        (fun _ => placing d t0 (fun l => exists l1 l0, l = (l1 ++ l0)%list /\ P1 l1 /\ P0 l0))
        (placing d t0 (fun l => exists l1 l0, l = (l1 ++ l0)%list /\ P1 l1 /\ P0 l0)).
Proof.
  intros Hm s (Hd & added0 & Ht0 & HP0).
  assert (Hstart : placing d (trace s) (eq []) s).
  { split; [exact Hd|]. exists []. auto. }
  specialize (Hm (trace s) s Hstart).
  destruct (m s) as [a s'|e s'|]; [| |exact I];
    destruct Hm as (Hd' & added1 & Ht1 & HP1);
    (split; [exact Hd'|]); exists (added1 ++ added0)%list;
    (split; [rewrite Ht1, Ht0, app_assoc; reflexivity|]);
    rewrite submitted_app; eauto.
Qed.

Lemma submitOrder_places (fuel : nat) (t0 : list Event) (r : OrderRequest) :
  hoare (fun s => placing (W := W) d t0 (eq []) s /\ order_data (self s) = Some r)
        (submitOrder fuel)
        (fun _ => placing d t0 (after_request d r))
        (placing d t0 (after_request d r)).
Proof.
  assert (Hnone : forall s : State W,
             placing d t0 (eq []) s -> placing d t0 (after_request d r) s).
  { intros s. apply placing_weaken. intros l <-. left. reflexivity. }
  assert (Hone : forall s : State W,
             placing d t0 (fun l => exists l0, l = r :: l0 /\ [] = l0) s ->
             placing d t0 (after_request d r) s).
  { intros s. apply placing_weaken. intros l (l0 & -> & <-). right. left. reflexivity. }
  assert (Hprog :
          hoare (fun s => placing (W := W) d t0 (eq []) s /\ order_data (self s) = Some r)
            (enabled <- opt "enabled";;
             if negb (truthy enabled) then
               d <- the_data;;
               od <- the_order_data;;
               log DEBUG (NotEnabledNotPlaced d (request_qty od))
             else
               od <- the_order_data;;
               o <- call (submit_order od) (EvSubmitOrder od);;
               set_order o;;
               verifyOrder fuel o false;;
               ret tt)
            (fun _ => placing d t0 (after_request d r))
            (placing d t0 (after_request d r)));
    [|intros s [Hs Hod]; unfold submitOrder; rewrite Hod; apply Hprog; auto].
  apply hoare_then.
  { apply preserves_opt. intros s [Hs _]. apply Hnone, Hs. }
  intros enabled. apply hoare_if.
  - eapply hoare_conseq; [intros s [Hs _]; exact Hs | | |].
    + intros a s Hs. apply Hnone, Hs.
    + intros s Hs. exact Hs.
    + apply hoare_preserves. preserved ltac:(placing_side ltac:(intros ? <-; left; reflexivity)).
  - apply submit_stored; [exact Hone|]. intros o.
    apply hoare_then.
    { intros s Hs. apply placing_order, Hs. }
    intros _.
    set (P0 := fun l : list OrderRequest => exists l0, l = r :: l0 /\ [] = l0).
    set (P2 := fun l : list OrderRequest =>
                 exists l1 l0, l = (l1 ++ l0)%list /\ at_most_one_market d l1 /\ P0 l0).
    assert (Hboth : forall s : State W,
               placing d t0 P2 s -> placing d t0 (after_request d r) s).
    { intros s. apply placing_weaken.
      intros l (l1 & l0 & -> & [->|(m & -> & Hm)] & lr & -> & <-).
      - right. left. reflexivity.
      - right. right. exists m. auto. }
    apply (hoare_bind _ _ _ (fun _ => placing d t0 P2)).
    + apply (hoare_conseq (placing d t0 P0) _ _
               (fun _ => placing d t0 P2) _ (placing d t0 P2)); auto.
      apply placing_shift. intros t1. apply verifyOrder_places.
    + intros _. apply hoare_ret. exact Hboth.
Qed.

Lemma after_request_placed (r : OrderRequest) (l : list OrderRequest) :
  request_symbol r = stock d -> 0 < request_qty r ->
  after_request d r l -> placed d l.
Proof.
  intros Hsym Hqty [->|[->|(m & -> & Hm)]]; [left; reflexivity | right | right];
    exists r; eauto 6.
Qed.

Lemma createOrder_places (fuel : nat) (t0 : list Event) :
  hoare (placing (W := W) d t0 (eq []))
        (createOrder fuel)
        (fun _ => placing d t0 (placed d))
        (placing d t0 (placed d)).
Proof.
  assert (Hnone : forall s : State W,
             placing d t0 (eq []) s -> placing d t0 (placed d) s).
  { intros s. apply placing_weaken. intros l <-. left. reflexivity. }
  unfold createOrder.
  apply hoare_then; [placing_steps | intros orders].
  apply hoare_then; [placing_steps | intros n].
  apply hoare_then; [unfold cancelOrderById; placing_steps | intros _].
  apply hoare_then.
  { unfold createOrder_decision, createOrder_amount, createOrder_posQty,
      createOrder_sizing. placing_steps.
}
  intros [sd amount|sd amount]; [apply hoare_ret, Hnone|].
  destruct (Qeqb amount 0) eqn:Hzero; [hoare_steps_with ltac:(fail)|].
  destruct (Qltb amount 0) eqn:Hneg; [hoare_steps_with ltac:(fail)|].
  assert (Hpos : 0 < amount).
  { apply Qltb_ge in Hneg. apply Qeqb_neq in Hzero. lra. }
  destruct sd as [sd|]; [|apply hoare_raise, Hnone].
  apply hoare_then; [placing_steps | intros limit].
  eapply hoare_bind.
  - eapply hoare_conseq; [| | |apply (orderType_places d t0 (eq []))];
      [auto | intros a s Hs; exact Hs | exact Hnone].
  - intros _ s (Hs & r & Hod & Hsym & Hqty).
    pose proof (submitOrder_places fuel t0 r s (conj Hs Hod)) as Hrun.
    assert (Hplaced : forall s' : State W,
               placing d t0 (after_request d r) s' -> placing d t0 (placed d) s').
    { intros s'. apply placing_weaken. intros l.
      apply after_request_placed; [exact Hsym | rewrite Hqty; exact Hpos]. }
    destruct (submitOrder fuel s) as [a s'|e s'|]; auto.
Qed.

End PlacesOrders.

(** ** The orders of one request *)

Section Request.

Context {W : Type} `{Environment W}.

Variable Phi : Data -> Prop.
Variable req0 : string.
Variable t0 : list Event.

Hypothesis setData_gives :
  forall (s1 s2 : State W),
    req (self s1) = req0 -> setData s1 = Ok tt s2 ->
    exists d, data (self s2) = Some d /\ Phi d.

Lemma req_with_options (o : gmap string Value) (s : State W) :
  req (self (with_options o s)) = req (self s).
Proof. unfold with_options. destruct (options_shared (self s)); reflexivity. Qed.

Lemma receiving_event (e : Event) (s : State W) :
  is_submission e = false ->
  receiving req0 t0 s -> receiving req0 t0 (with_trace (e :: trace s) s).
Proof.
  intros He (Hd & Hr & added & Ht & Hl). split; [exact Hd|]. split; [exact Hr|].
  exists (e :: added). split; [simpl; rewrite Ht; reflexivity|].
  rewrite (submitted_cons e added He). exact Hl.
Qed.

Lemma receiving_options (o : gmap string Value) (s : State W) :
  receiving req0 t0 s -> receiving req0 t0 (with_options o s).
Proof.
  intros (Hd & Hr & Ht).
  split; [rewrite data_with_options; exact Hd|].
  split; [rewrite req_with_options; exact Hr|].
  rewrite trace_with_options. exact Ht.
Qed.

Lemma receiving_handled (s : State W) : receiving req0 t0 s -> handled Phi t0 s.
Proof. intros (Hd & _ & added & Ht & Hl). exists added. auto. Qed.

Lemma placing_handled (d : Data) (P : list OrderRequest -> Prop) (s : State W) :
  Phi d -> (forall l, P l -> placed d l) ->
  placing d t0 P s -> handled Phi t0 s.
Proof.
  intros HPhi HP (Hd & added & Ht & Hl). exists added. split; [exact Ht|].
  right. exists d. auto.
Qed.

Lemma setData_receives :
  hoare (receiving (W := W) req0 t0) setData
        (fun _ s => exists d, Phi d /\ placing d t0 (eq []) s)
        (handled Phi t0).
Proof.
  intros s Hs. pose proof Hs as (Hd & Hr & added & Ht & Hl).
  pose proof (setData_outcomes s) as Hout.
  pose proof (setData_gives s) as Hgives.
  destruct (setData s) as [[] s'|e s'|]; [| |contradiction].
  - destruct (Hgives s' Hr eq_refl) as (d & Hd' & HPhi).
    destruct Hout as [d' ->]. simpl in Hd'. injection Hd' as ->.
    exists d. split; [exact HPhi|]. split; [reflexivity|].
    exists added. auto.
  - destruct Hout as [[_ ->]|[_ ->]].
    + apply receiving_handled, receiving_event; [reflexivity | exact Hs].
    + apply receiving_handled, Hs.
Qed.

Lemma setPosition_places (d : Data) (P : list OrderRequest -> Prop) (R : State W -> Prop) :
  preserves (placing (W := W) d t0 P) R True setPosition.
Proof.
  intros s Hs. rewrite setPosition_run. rewrite (placing_data _ _ _ _ Hs). cbv zeta.
  apply placing_options, placing_world, placing_event; [reflexivity | exact Hs].
Qed.

Lemma fetching_places (fuel : nat) (d : Data) :
  Phi d ->
  hoare (placing (W := W) d t0 (eq []))
        (setOrders;; setPosition;; setBalance;; createOrder fuel)
        (fun _ => handled Phi t0) (handled Phi t0).
Proof.
  intros HPhi.
  assert (Hnone : forall s : State W, placing d t0 (eq []) s -> handled Phi t0 s).
  { intros s. apply placing_handled; [exact HPhi|]. intros l <-. left. reflexivity. }
  assert (Hplaced : forall s : State W, placing d t0 (placed d) s -> handled Phi t0 s).
  { intros s. apply placing_handled; [exact HPhi | auto]. }
  pose (side := fun (s : State W) (Hs : placing d t0 (eq []) s) => Hnone s Hs).
  apply hoare_then.
  { unfold setOrders.
    preserved ltac:(first [ exact Hnone | placing_side placing_weaker ]). }
  intros _. apply hoare_then; [apply setPosition_places | intros _].
  apply hoare_then.
  { unfold setBalance.
    preserved ltac:(first [ exact Hnone | placing_side placing_weaker ]). }
  intros _.
  eapply hoare_conseq; [| | |apply (createOrder_places d fuel t0)]; auto.
Qed.

Lemma init_handles (fuel : nat) (paper : bool) (newOptions : gmap string Value)
    (s : State W) :
  (exists added, trace s = (added ++ t0)%list /\ submitted added = []) ->
  match AutomatedTrader_init fuel paper req0 newOptions s with
  | Ok _ s' | Raise _ s' => handled Phi t0 s'
  | Diverge => True
  end.
Proof.
  intros Ht.
  assert (Hrest :
      hoare (receiving req0 t0)
            (enabled <- opt "enabled";;
             conflict <-
               (if truthy enabled then
                  testMode <- opt "testMode";;
                  ret (truthy testMode && negb paper)
                else ret false);;
             if conflict then
               log ERROR ConfigConflict;;
               raise (Exception "testMode and real money keys being used, exiting. Switch one or the other.")
             else
               enabled <- opt "enabled";;
               if truthy enabled then
                 setData;;
                 setOrders;;
                 setPosition;;
                 setBalance;;
                 createOrder fuel
               else ret tt)
            (fun _ => handled Phi t0) (handled Phi t0)).
  { pose (side := tt).
    apply hoare_then.
    { preserved ltac:(first [ exact receiving_handled ]). }
    intros enabled. apply hoare_then.
    { preserved ltac:(first [ exact receiving_handled ]). }
    intros conflict. apply hoare_if.
    - apply hoare_then.
      { unfold log.
        preserved ltac:(first [ exact receiving_handled
                              | intros; apply receiving_event; [reflexivity | assumption] ]). }
      intros _. apply hoare_raise. exact receiving_handled.
    - apply hoare_then.
      { preserved ltac:(first [ exact receiving_handled ]). }
      intros enabled'. apply hoare_if; [|apply hoare_ret; exact receiving_handled].
      eapply hoare_bind; [apply setData_receives|].
      intros _ s1 (d & HPhi & Hs1). apply (fetching_places fuel d HPhi s1 Hs1). }
  unfold AutomatedTrader_init, new_instance, update_options, options_size.
  unfold bind at 1 2 3 4.
  set (s0 := with_self _ s).
  assert (Hs0 : receiving req0 t0 s0) by (split; [reflexivity | split; [reflexivity | exact Ht]]).
  destruct (negb (size (options (with_options (newOptions ∪ options s0) s0))
                  =? size (options s0))%nat).
  - apply receiving_handled, receiving_options, Hs0.
  - apply Hrest, receiving_options, Hs0.
Qed.

Lemma respond_handles (fuel : nat) (paper : bool) (s : State W) :
  trace s = t0 ->
  match respond fuel paper req0 s with
  | Ok _ s' | Raise _ s' => handled Phi t0 s'
  | Diverge => True
  end.
Proof.
  intros Ht. unfold respond, log. rewrite bind_emit. unfold bind at 1.
  match goal with |- context [AutomatedTrader_init _ _ _ _ ?s1] =>
    pose proof (init_handles fuel paper ∅ s1) as Hinit end.
  match type of Hinit with ?A -> _ => assert (Hstart : A) end.
  { exists [EvLog INFO (RecievedRequest req0)]. simpl. rewrite Ht. auto. }
  specialize (Hinit Hstart).
  destruct (AutomatedTrader_init _ _ _ _ _) as [a s'|e s'|]; auto.
Qed.

End Request.

Section OneRequest.

Context {W : Type} `{Environment W}.

(** Called on a trader that works on the alert [d], [createOrder]
    submits at most two orders, both for the symbol of [d]: the first
    for a positive quantity, the second a market order. *)
Theorem createOrder_places_at_most_two (fuel : nat) (s : State W) (d : Data) :
  data (self s) = Some d ->
  match createOrder fuel s with
  | Ok _ s' | Raise _ s' =>
      data (self s') = Some d
      /\ exists added,
          trace s' = (added ++ trace s)%list /\ placed d (submitted added)
  | Diverge => True
  end.
Proof.
  intros Hd.
  assert (Hs : placing d (trace s) (eq []) s).
  { split; [exact Hd|]. exists []. auto. }
  pose proof (createOrder_places d fuel (trace s) s Hs) as Hrun.
  destruct (createOrder fuel s) as [a s'|e s'|]; auto.
Qed.

(** One request leads to at most two orders.  Whatever the request, the
    options and the broker are: when [respond] returns or raises, it has
    submitted nothing, or it has parsed an alert and submitted one order
    or two for the symbol of that alert, the first for a positive
    quantity and the second a market order. *)
Theorem one_request_at_most_two_orders
    (fuel : nat) (paper : bool) (req_data : string) (s : State W) :
  match respond fuel paper req_data s with
  | Ok _ s' | Raise _ s' =>
      exists added,
        trace s' = (added ++ trace s)%list
        /\ (submitted added = []
            \/ exists d, data (self s') = Some d /\ placed d (submitted added))
  | Diverge => True
  end.
Proof.
  pose proof (respond_handles (fun _ => True) req_data (trace s)) as Hrun.
  specialize (Hrun
    (fun s1 s2 _ E =>
       match setData_outcomes s1 with
       | Hout => ltac:(rewrite E in Hout; destruct Hout as [d ->]; exists d; split;
                       [reflexivity | exact I])
       end) fuel paper s eq_refl).
  destruct (respond fuel paper req_data s) as [a s'|e s'|]; [| |exact I];
    destruct Hrun as (added & Ht & [[_ Hl]|(d & Hd & _ & Hl)]);
    exists added; eauto.
Qed.

(** The text of a request that comes in through the handler is the
    [str] of a [bytes] object: it begins with [b], not with [LDC].  So
    it is read as a custom alert: whenever [respond] has stored an alert,
    its action is [buy] or [sell] up to case and it has no position. *)
Theorem handled_alert_has_no_position
    (fuel : nat) (paper : bool) (body : string) (s : State W) :
  match respond fuel paper (String "b" body) s with
  | Ok _ s' | Raise _ s' =>
      forall d,
        data (self s') = Some d ->
        position d = None
        /\ exists a, action d = Some a
                     /\ (lower_text a = "buy" \/ lower_text a = "sell")
  | Diverge => True
  end.
Proof.
  pose proof (respond_handles
                (fun d => position d = None
                          /\ exists a, action d = Some a
                                       /\ (lower_text a = "buy" \/ lower_text a = "sell"))
                (String "b" body) (trace s)) as Hrun.
  assert (Hparse : forall s1 s2 : State W,
             req (self s1) = String "b" body ->
             setData s1 = Ok tt s2 ->
             exists d, data (self s2) = Some d
                       /\ position d = None
                       /\ exists a, action d = Some a
                                    /\ (lower_text a = "buy" \/ lower_text a = "sell")).
  { intros s1 s2 Hr E.
    apply setData_reads_custom_alert in E
      as (pre & t & post & a & sym & p & x & _ & Halert & _ & _ & ->).
    - destruct Halert as (o & lb & rb & _ & _ & Ha & _).
      eexists. split; [reflexivity|]. simpl. eauto.
    - rewrite Hr. destruct body as [|c [|c' body']]; discriminate. }
  specialize (Hrun Hparse fuel paper s eq_refl).
  destruct (respond fuel paper (String "b" body) s) as [a s'|e s'|]; [| |exact I];
    destruct Hrun as (added & Ht & [[Hnone _]|(d & Hd & HPhi & _)]);
    intros d' Hd'; [congruence | | congruence |];
    rewrite Hd in Hd'; injection Hd' as <-; exact HPhi.
Qed.

End OneRequest.

(** ** The policy [Cancel] *)

Section CancelPolicy.

Context {W : Type} `{Environment W}.

Lemma stable_weaken (p q : Event -> bool) (Inv : State W -> Prop) :
  (forall e, p e = true -> q e = true) -> stable q Inv -> stable p Inv.
Proof.
  intros Hpq [He Hw]. split; [|exact Hw]. intros e s Hp. apply He, Hpq, Hp.
Qed.

Lemma supervision_submits_nothing (e : Event) :
  supervision_event e = true -> no_submission e = true.
Proof. destruct e; try discriminate; reflexivity. Qed.

Variable opts : gmap string Value.
Variable t0 : list Event.
Variable o : Order.

Hypothesis policy : opts !! timeout_setting o = Some (VStr "Cancel").

Lemma settled_stable : stable no_submission (settled (W := W) opts t0).
Proof.
  split.
  - intros e s He (Ho & added & Ht & Hl). split; [exact Ho|].
    exists (e :: added). split; [simpl; rewrite Ht; reflexivity|].
    rewrite submitted_cons; [exact Hl|].
    unfold no_submission in He. destruct (is_submission e); [discriminate He | reflexivity].
  - intros w s Hs. exact Hs.
Qed.

(** The test for the policy [Cancel] succeeds, if it ends. *)
Lemma cancel_policy_holds {A} (m1 m2 : M W A) :
  preserves (settled opts t0) (settled opts t0) True m1 ->
  preserves (settled opts t0) (settled opts t0) True
    (cancel_policy <-
       timeout_policy "Cancel" (bool_decide (side o = BUY)) (bool_decide (side o = SELL));;
     if cancel_policy then m1 else m2).
Proof.
  intros Hm1 s Hs. pose proof Hs as [Ho _].
  unfold timeout_policy. rewrite bind_bind.
  unfold timeout_setting in policy. destruct (side o).
  - rewrite (bind_opt "buyTimeout" (VStr "Cancel")) by (rewrite Ho; exact policy).
    simpl. rewrite bind_ret. apply Hm1, Hs.
  - unfold bind at 1. unfold opt at 1.
    destruct (options s !! "buyTimeout") as [v|]; [|exact Hs].
    rewrite bool_decide_eq_false_2 by discriminate. rewrite andb_false_r.
    rewrite bind_bind.
    rewrite (bind_opt "sellTimeout" (VStr "Cancel")) by (rewrite Ho; exact policy).
    simpl. rewrite bind_ret. apply Hm1, Hs.
Qed.

Lemma settled_verifyOrder_escalate
    (self_call : Order -> bool -> M W Value) (o1 : Order) (id : string) (mt : Value) :
  (forall o', preserves (settled opts t0) (settled opts t0) True (self_call o' true)) ->
  preserves (settled opts t0) (settled opts t0) True
    (verifyOrder_escalate self_call o1 id
       (bool_decide (side o = BUY)) (bool_decide (side o = SELL)) mt).
Proof.
  intros Hself. pose proof settled_stable as Hst.
  unfold verifyOrder_escalate.
  preserved_with
    ltac:(first [ apply cancel_policy_holds | apply Hself ])
    stable_side.
Qed.

Lemma settled_verifyOrder_while
    (self_call : Order -> bool -> M W Value) (mt tmt : Value) (start : Q) (id : string) :
  (forall o', preserves (settled opts t0) (settled opts t0) True (self_call o' true)) ->
  forall (n : nat) (o1 : Order) (timeout : bool),
    preserves (settled opts t0) (settled opts t0) True
      (verifyOrder_while self_call n mt tmt
         (bool_decide (side o = BUY)) (bool_decide (side o = SELL)) start id o1 timeout).
Proof.
  intros Hself. pose proof settled_stable as Hst.
  induction n as [|n IH]; intros o1 timeout; simpl; [intros s Hs; exact I|].
  unfold exceeds.
  preserved_with
    ltac:(first [ apply IH
                | apply settled_verifyOrder_escalate, Hself ])
    stable_side.
Qed.

Lemma settled_verifyOrder (fuel : nat) (timeout : bool) :
  preserves (settled opts t0) (settled opts t0) True (verifyOrder fuel o timeout).
Proof.
  pose proof settled_stable as Hst.
  destruct fuel as [|fuel]; simpl; [intros s Hs; exact I|].
  preserved_with
    ltac:(apply settled_verifyOrder_while; intros o';
          apply stable_verifyOrder, (stable_weaken _ _ _ supervision_submits_nothing Hst))
    stable_side.
Qed.

End CancelPolicy.

Section CancelPolicyHolds.

Context {W : Type} `{Environment W}.

(** A timed-out order whose side has the policy [Cancel] is not
    replaced: [verifyOrder] submits nothing, and leaves the options as
    they are. *)
Theorem cancel_policy_replaces_nothing
    (fuel : nat) (o : Order) (timeout : bool) (s : State W) :
  options s !! timeout_setting o = Some (VStr "Cancel") ->
  match verifyOrder fuel o timeout s with
  | Ok _ s' | Raise _ s' =>
      options s' = options s
      /\ exists added, trace s' = (added ++ trace s)%list /\ submitted added = []
  | Diverge => True
  end.
Proof.
  intros Hpolicy.
  assert (Hs : settled (options s) (trace s) s).
  { split; [reflexivity|]. exists []. auto. }
  pose proof (settled_verifyOrder (options s) (trace s) o Hpolicy fuel timeout s Hs) as Hrun.
  destruct (verifyOrder fuel o timeout s) as [r s'|e s'|]; auto.
Qed.

End CancelPolicyHolds.

(** ** The settings of the module *)

(** The settings of real-money trading replace values of the paper
    settings and add no key.  [loadSettings] returns a dictionary with
    the keys of [paper], each with the value [selected] gives it, if any,
    and else with the one of [paper]; it raises, naming the key, when
    [real] has a key that [paper] has not.  ([selected] is the dictionary
    of real trading, or part of it.) *)
Theorem loadSettings_adds_no_key
    (paper : gmap string Value) (real_keys : list string) (using_account : string)
    (selected : gmap string Value) :
  using_account <> "paperTrading" ->
  (forall k, is_Some (selected !! k) -> k ∈ real_keys) ->
  match loadSettings paper real_keys using_account selected with
  | inr r =>
      dom r = dom paper
      /\ (forall k, k ∈ real_keys -> is_Some (paper !! k))
      /\ forall k, r !! k = match selected !! k with
                            | Some v => Some v
                            | None => paper !! k
                            end
  | inl e =>
      exists i,
        i ∈ real_keys /\ paper !! i = None
        /\ e = Exception ("realTrading/paperTrading setting name mismatch: " ++ i
                          ++ ". Please fix the spelling in realTrading")
  end.
Proof.
  intros Husing Hsel. unfold loadSettings.
  destruct (String.eqb using_account "paperTrading") eqn:E;
    [apply String.eqb_eq in E; contradiction|].
  destruct (find _ real_keys) as [i|] eqn:Hfind.
  - apply find_some in Hfind as [Hin Hi]. apply bool_decide_eq_true in Hi.
    exists i. split; [apply list_elem_of_In, Hin | auto].
  - assert (Hall : forall k, k ∈ real_keys -> is_Some (paper !! k)).
    { intros k Hk. apply list_elem_of_In in Hk.
      pose proof (find_none _ _ Hfind k Hk) as Hk'. simpl in Hk'.
      apply bool_decide_eq_false in Hk'.
      destruct (paper !! k); [eauto | contradiction]. }
    split; [|split; [exact Hall|]].
    + rewrite dom_union_L. apply subseteq_union_1_L.
      intros k Hk. apply elem_of_dom in Hk. apply elem_of_dom. auto.
    + intros k. rewrite lookup_union. destruct (selected !! k), (paper !! k); reflexivity.
Qed.

(** ** More concrete runs *)

Lemma setData_reads_custom_alert_witness :
  substring 0 3 "b'order buy | MSFT@337.57 | x'" <> "LDC"
  /\ exists s',
      setData (request "b'order buy | MSFT@337.57 | x'" Sim.demo_settings Sim.calm)
      = Ok tt s'
      /\ exists pre t post a sym p x,
          "b'order buy | MSFT@337.57 | x'" = pre ++ t ++ post
          /\ custom_alert t a sym p
          /\ py_float p = Some x
          /\ 0 <= x
          /\ s' = with_self
                    (with_data {| action := Some a; position := None;
                                  stock := Some sym; price := x |}
                       (self (request "b'order buy | MSFT@337.57 | x'"
                                      Sim.demo_settings Sim.calm)))
                    (request "b'order buy | MSFT@337.57 | x'" Sim.demo_settings Sim.calm).
Proof.
  split; [discriminate|].
  eexists. split; [vm_compute; reflexivity|].
  apply (setData_reads_custom_alert
           (request "b'order buy | MSFT@337.57 | x'" Sim.demo_settings Sim.calm));
    [discriminate | vm_compute; reflexivity].
Defined.

Lemma setData_reads_ldc_alert_witness :
  substring 0 3 "LDC Kernel Bear Short | CLSK@4.015 | (1)" = "LDC"
  /\ exists s',
      setData (request "LDC Kernel Bear Short | CLSK@4.015 | (1)"
                       Sim.demo_settings Sim.calm)
      = Ok tt s'
      /\ exists pre t post a hint sym p x,
          "LDC Kernel Bear Short | CLSK@4.015 | (1)" = pre ++ t ++ post
          /\ ldc_alert t a hint sym p
          /\ py_float p = Some x
          /\ 0 <= x
          /\ s' = with_self
                    (with_data {| action := Some a; position := hint;
                                  stock := Some sym; price := x |}
                       (self (request "LDC Kernel Bear Short | CLSK@4.015 | (1)"
                                      Sim.demo_settings Sim.calm)))
                    (request "LDC Kernel Bear Short | CLSK@4.015 | (1)"
                             Sim.demo_settings Sim.calm).
Proof.
  split; [reflexivity|].
  eexists. split; [vm_compute; reflexivity|].
  apply (setData_reads_ldc_alert
           (request "LDC Kernel Bear Short | CLSK@4.015 | (1)" Sim.demo_settings Sim.calm));
    [reflexivity | vm_compute; reflexivity].
Defined.

Lemma unknown_option_is_refused_witness :
  ~ dom misspelt ⊆ dom (base_options (Sim.boot Sim.calm Sim.demo_settings))
  /\ exists s',
      AutomatedTrader_init 5 true "b'order buy | MSFT@337.57 | x'" misspelt
                           (Sim.boot Sim.calm Sim.demo_settings)
      = Raise (Exception "Extra options found. Verify newOption keys match option keys") s'
      /\ world s' = world (Sim.boot Sim.calm Sim.demo_settings)
      /\ trace s' = trace (Sim.boot Sim.calm Sim.demo_settings)
      /\ data (self s') = None
      /\ options s' = effective_options (Sim.boot Sim.calm Sim.demo_settings) misspelt.
Proof.
  assert (Hnew : ~ dom misspelt ⊆ dom (base_options (Sim.boot Sim.calm Sim.demo_settings))).
  { intros Hsub. specialize (Hsub "Short").
    assert (Hin : "Short" ∈ dom misspelt) by (apply elem_of_dom; eexists; reflexivity).
    apply Hsub, elem_of_dom in Hin. destruct Hin as [v Hv]. vm_compute in Hv.
    discriminate Hv. }
  split; [exact Hnew|].
  exact (unknown_option_is_refused 5 true "b'order buy | MSFT@337.57 | x'" misspelt
           (Sim.boot Sim.calm Sim.demo_settings) Hnew).
Defined.

Lemma refused_options_stay_witness :
  (0 < size (settings (Sim.boot Sim.calm dry_settings)))%nat
  /\ ~ dom misspelt ⊆ dom (settings (Sim.boot Sim.calm dry_settings))
  /\ option_false (misspelt ∪ settings (Sim.boot Sim.calm dry_settings)) "enabled"
  /\ exists s1 s2,
      AutomatedTrader_init 5 true "b'order buy | MSFT@337.57 | x'" misspelt
                           (Sim.boot Sim.calm dry_settings)
      = Raise (Exception "Extra options found. Verify newOption keys match option keys") s1
      /\ settings s1 = misspelt ∪ settings (Sim.boot Sim.calm dry_settings)
      /\ AutomatedTrader_init 5 true "b'order buy | MSFT@337.57 | x'" misspelt s1 = Ok tt s2
      /\ settings s2 = misspelt ∪ settings (Sim.boot Sim.calm dry_settings).
Proof.
  assert (Hsize : (0 < size (settings (Sim.boot Sim.calm dry_settings)))%nat)
    by (vm_compute; lia).
  assert (Hnew : ~ dom misspelt ⊆ dom (settings (Sim.boot Sim.calm dry_settings))).
  { intros Hsub. specialize (Hsub "Short").
    assert (Hin : "Short" ∈ dom misspelt) by (apply elem_of_dom; eexists; reflexivity).
    apply Hsub, elem_of_dom in Hin. destruct Hin as [v Hv]. vm_compute in Hv.
    discriminate Hv. }
  assert (Hen : option_false (misspelt ∪ settings (Sim.boot Sim.calm dry_settings))
                             "enabled")
    by (exists (VBool false); split; vm_compute; reflexivity).
  split; [exact Hsize|]. split; [exact Hnew|]. split; [exact Hen|].
  exact (refused_options_stay 5 true "b'order buy | MSFT@337.57 | x'" misspelt
           (Sim.boot Sim.calm dry_settings) Hsize Hnew Hen).
Defined.

Lemma four_queries_before_the_decision_witness :
  exists s',
    (setData;; setOrders;; setPosition;; setBalance)
      (request "b'order buy | MSFT@337.57 | x'" Sim.demo_settings stalled) = Ok tt s'
    /\ exists d all,
        data (self s') = Some d
        /\ options s' !! "allOrders" = Some (VOrders all)
        /\ trace s'
           = ([EvGetAccount; EvGetOpenPosition (stock d); EvGetOrders (Some [stock d])]
                ++ rev (map (fun x => EvPrint [of_group (symbol x); VNum (qty x)]) all)
                ++ EvGetOrders None
                     :: trace (request "b'order buy | MSFT@337.57 | x'"
                                       Sim.demo_settings stalled))%list.
Proof.
  eexists. split; [vm_compute; reflexivity|].
  apply (four_queries_before_the_decision
           (request "b'order buy | MSFT@337.57 | x'" Sim.demo_settings stalled)).
  vm_compute; reflexivity.
Defined.

Lemma cancelOrderById_cancels_each_witness :
  (forall (i : string) (w : Sim.World), fst (cancel_order_by_id i w) = inr tt)
  /\ option_true (options with_open_order) "enabled"
  /\ options with_open_order !! "orders" = Some (VOrders [resting_order])
  /\ data (self with_open_order) = Some msft_buy
  /\ exists s',
      cancelOrderById None with_open_order = Ok None s'
      /\ trace s'
         = (rev (flat_map (fun x => [EvCancelOrderById (id_hex x);
                                     EvLog INFO (CanceledOrder msft_buy (id_hex x))])
                          [resting_order])
              ++ trace with_open_order)%list
      /\ options s' = options with_open_order
      /\ self s' = self with_open_order.
Proof.
  assert (Hcancel : forall (i : string) (w : Sim.World),
             fst (cancel_order_by_id i w) = inr tt) by (intros i w; reflexivity).
  assert (Hen : option_true (options with_open_order) "enabled")
    by (exists (VBool true); split; vm_compute; reflexivity).
  assert (Horders : options with_open_order !! "orders" = Some (VOrders [resting_order]))
    by (vm_compute; reflexivity).
  split; [exact Hcancel|]. split; [exact Hen|]. split; [exact Horders|].
  split; [reflexivity|].
  exact (cancelOrderById_cancels_each Hcancel with_open_order msft_buy [resting_order]
           Hen Horders eq_refl).
Defined.

Lemma zero_price_raises_witness :
  price msft_free == 0
  /\ createOrder 5 (shared_parsed msft_free (fetched VNone true 0) Sim.calm)
     = Raise ZeroDivisionError
             (after_amount (VBool true) 0
                (shared_parsed msft_free (fetched VNone true 0) Sim.calm)).
Proof.
  split; [reflexivity|].
  apply (zero_price_raises 5 (shared_parsed msft_free (fetched VNone true 0) Sim.calm)
           msft_free (VBool true) 0 (2 # 10));
    first [reflexivity | vm_compute; reflexivity].
Defined.

Lemma createOrder_places_at_most_two_witness :
  data (self (shared_parsed msft_buy (fetched VNone true 0) Sim.calm)) = Some msft_buy
  /\ match createOrder 5 (shared_parsed msft_buy (fetched VNone true 0) Sim.calm) with
     | Ok _ s' | Raise _ s' =>
         data (self s') = Some msft_buy
         /\ exists added,
             trace s'
             = (added ++ trace (shared_parsed msft_buy (fetched VNone true 0) Sim.calm))%list
             /\ placed msft_buy (submitted added)
     | Diverge => True
     end.
Proof.
  split; [reflexivity|].
  apply (createOrder_places_at_most_two 5
           (shared_parsed msft_buy (fetched VNone true 0) Sim.calm) msft_buy).
  reflexivity.
Defined.

Lemma cancel_policy_replaces_nothing_witness :
  options (supervising Sim.demo_settings) !! timeout_setting resting_order
  = Some (VStr "Cancel")
  /\ match verifyOrder 20 resting_order false (supervising Sim.demo_settings) with
     | Ok _ s' | Raise _ s' =>
         options s' = options (supervising Sim.demo_settings)
         /\ exists added,
             trace s' = (added ++ trace (supervising Sim.demo_settings))%list
             /\ submitted added = []
     | Diverge => True
     end.
Proof.
  assert (Hpolicy : options (supervising Sim.demo_settings) !! timeout_setting resting_order
                    = Some (VStr "Cancel")) by (vm_compute; reflexivity).
  split; [exact Hpolicy|].
  pose proof (cancel_policy_replaces_nothing 20 resting_order false
                (supervising Sim.demo_settings) Hpolicy) as Hrun.
  exact Hrun.
Defined.

Lemma loadSettings_adds_no_key_witness :
  "realTrading" <> "paperTrading"
  /\ (forall k, is_Some (real_settings !! k) -> k ∈ ["testMode"; "buyPerc"])
  /\ match loadSettings Sim.demo_settings ["testMode"; "buyPerc"] "realTrading"
                         real_settings with
     | inr r =>
         dom r = dom Sim.demo_settings
         /\ (forall k, k ∈ ["testMode"; "buyPerc"] -> is_Some (Sim.demo_settings !! k))
         /\ forall k, r !! k = match real_settings !! k with
                               | Some v => Some v
                               | None => Sim.demo_settings !! k
                               end
     | inl e =>
         exists i,
           i ∈ ["testMode"; "buyPerc"] /\ Sim.demo_settings !! i = None
           /\ e = Exception ("realTrading/paperTrading setting name mismatch: " ++ i
                             ++ ". Please fix the spelling in realTrading")
     end.
Proof.
  assert (Hkeys : forall k, is_Some (real_settings !! k) -> k ∈ ["testMode"; "buyPerc"]).
  { intros k [v Hv]. unfold real_settings in Hv.
    destruct (decide (k = "testMode")) as [->|Hk1]; [set_solver|].
    rewrite lookup_insert_ne in Hv by congruence.
    destruct (decide (k = "buyPerc")) as [->|Hk2]; [set_solver|].
    rewrite lookup_singleton_ne in Hv by congruence. discriminate Hv. }
  split; [discriminate|]. split; [exact Hkeys|].
  apply (loadSettings_adds_no_key Sim.demo_settings ["testMode"; "buyPerc"]
           "realTrading" real_settings); [discriminate | exact Hkeys].
Defined.
